(** * The text-to-speech music mixer of [main.py]

    A shallow embedding of [mix_with_music], [test_audio_files] and the
    Preview / Download button handlers, together with the properties of the
    mixing engine that the specification states about them.

    The program drives the [pydub] audio library and an external codec.
    Their operations are not part of the sources: the codec, the speech
    synthesiser, the resampling kernel, the decibel conversion, Python's
    [str.strip] and the files a failed export leaves behind are parameters
    of the development; the buffer operations are modelled from the
    specification's description of an audio buffer, and which of the
    library calls raise in a run is a parameter as well.  Lengths are
    [pydub] lengths: whole milliseconds. *)

From Stdlib Require Import ZArith QArith Qround String Ascii List Lia.
From Stdlib.Strings Require Import Byte.
From Stdlib Require PrimFloat Uint63.
From stdpp Require Import gmap strings list pretty.
Import ListNotations.

Local Open Scope Z_scope.
Local Open Scope string_scope.

(** ** Audio buffers *)

(** One frame: one signed sample per channel. *)
Definition frame := list Z.

(** The frames of one millisecond of audio. *)
Definition block := list frame.

(** Modelled from the spec: the [AudioSegment] class of [pydub] is not part
    of the sources.  A buffer has a sample rate, a channel count, a sample
    format (bytes per sample) and its ordered samples; since every length,
    slice bound and fade duration of the program is a number of
    milliseconds, the samples are kept as the sequence of one-millisecond
    blocks of frames. *)
Record AudioSegment := mkSeg {
  frame_rate : Z;
  channels : Z;
  sample_width : Z;
  blocks : list block
}.

(** [len(seg)]: the duration in milliseconds. *)
Definition len (s : AudioSegment) : Z := Z.of_nat (length (blocks s)).

(** Total number of frames (samples per channel). *)
Definition frame_count (s : AudioSegment) : nat :=
  sum_list (map (@length frame) (blocks s)).

(** All samples, in order. *)
Definition samples (s : AudioSegment) : list Z := concat (concat (blocks s)).

Definition with_blocks (s : AudioSegment) (bs : list block) : AudioSegment :=
  mkSeg (frame_rate s) (channels s) (sample_width s) bs.

(** A valid buffer per the data model: positive rate, one or two channels,
    a positive sample width, and every frame holds one sample per channel. *)
Definition valid (s : AudioSegment) : Prop :=
  0 < frame_rate s /\ (channels s = 1 \/ channels s = 2) /\ 0 < sample_width s /\
  Forall (Forall (fun f : frame => Z.of_nat (length f) = channels s)) (blocks s).

(** ** Sample arithmetic *)

Definition max_sample (w : Z) : Z := 2 ^ (8 * w - 1) - 1.
Definition min_sample (w : Z) : Z := - 2 ^ (8 * w - 1).

(** Clipping to the amplitude range of a [w]-byte signed sample. *)
Definition clip (w x : Z) : Z := Z.max (min_sample w) (Z.min (max_sample w) x).

(** Multiplying one sample by a linear factor. *)
Definition mul_sample (w : Z) (k : Q) (x : Z) : Z :=
  clip w (Qfloor (k * inject_Z x)).

(** Adding two samples without wrap-around. *)
Definition add_sample (w : Z) (x y : Z) : Z := clip w (x + y).

Definition scale_block (w : Z) (k : Q) (b : block) : block :=
  map (map (mul_sample w k)) b.

(** Combine [xs] with [ys] position by position, keeping the shape of [xs]:
    positions that [ys] does not cover are left as they are and the excess of
    [ys] is dropped. *)
Fixpoint zip_onto {A : Type} (f : A -> A -> A) (xs ys : list A) : list A :=
  match xs, ys with
  | x :: xs', y :: ys' => f x y :: zip_onto f xs' ys'
  | _, _ => xs
  end.

(** ** Exceptions *)

(** The text of a raised Python exception. *)
Definition exn := string.

(** A computation that returns or raises. *)
Definition Exc (A : Type) : Type := (exn + A)%type.

Definition raise {A : Type} (e : exn) : Exc A := inl e.
Definition ret {A : Type} (a : A) : Exc A := inr a.
Definition bind {A B : Type} (m : Exc A) (k : A -> Exc B) : Exc B :=
  match m with
  | inl e => inl e
  | inr a => k a
  end.

Notation "'let*' x ':=' m 'in' k" := (bind m (fun x => k))
  (at level 10, x name, m at level 100, k at level 200).

(** ** Strings *)

Definition lower_ascii (c : ascii) : ascii :=
  let n := nat_of_ascii c in
  if ((65 <=? n)%nat && (n <=? 90)%nat)%bool then ascii_of_nat (n + 32) else c.

(** [s.lower()] on ASCII text. *)
Fixpoint lower (s : string) : string :=
  match s with
  | EmptyString => EmptyString
  | String c s' => String (lower_ascii c) (lower s')
  end.

(** [s.split('.')[-1]]: the text after the last dot, or all of [s] when it
    has no dot.  [acc] is the component read so far. *)
Fixpoint last_dot_component (s acc : string) : string :=
  match s with
  | EmptyString => acc
  | String c s' =>
      if Ascii.eqb c "."%char then last_dot_component s' EmptyString
      else last_dot_component s' (acc ++ String c EmptyString)
  end.

Definition split_dot_last (s : string) : string := last_dot_component s EmptyString.

(** [not s]: the string is empty. *)
Definition is_empty (s : string) : bool :=
  match s with EmptyString => true | _ => false end.

(** ** The world the program runs in *)

(** File contents. *)
Definition bytes : Type := list Byte.byte.

(** What the user interface was told to show. *)
Inductive UiEvent : Type :=
| UiError (msg : string)
| UiWarning (msg : string)
| UiInfo (msg : string)
| UiSuccess (msg : string)
| UiAudio (path : string)
| UiDownloadButton (data : bytes) (file_name : string).

(** The files on disk, the interface events in the order they were issued,
    and the names handed out by [NamedTemporaryFile(delete=False)], oldest
    first. *)
Record World := mkWorld {
  files : gmap string (bytes);
  ui : list UiEvent;
  temps : list string
}.

(** Keyword arguments of [AudioSegment.export]. *)
Record ExportOpts := mkOpts {
  format : string;
  bitrate : option string;
  parameters : list string
}.

(** A computation on the world that returns or raises. *)
Definition M (A : Type) : Type := World -> Exc A * World.

Definition mret {A : Type} (a : A) : M A := fun w => (inr a, w).
Definition mbind {A B : Type} (m : M A) (k : A -> M B) : M B :=
  fun w => match m w with
           | (inl e, w') => (inl e, w')
           | (inr a, w') => k a w'
           end.
Definition lift {A : Type} (m : Exc A) : M A := fun w => (m, w).

(** [try: body except Exception as e: handler(e)]. *)
Definition try_except {A : Type} (body : M A) (handler : exn -> M A) : M A :=
  fun w => match body w with
           | (inl e, w') => handler e w'
           | (inr a, w') => (inr a, w')
           end.

Notation "'let!' x ':=' m 'in' k" := (mbind m (fun x => k))
  (at level 10, x name, m at level 100, k at level 200).
Notation "m ;;; k" := (mbind m (fun _ => k))
  (at level 100, k at level 200, right associativity).

Definition emit (e : UiEvent) : M unit :=
  fun w => (inr tt, mkWorld (files w) (ui w ++ [e]) (temps w)).

Definition st_error (msg : string) : M unit := emit (UiError msg).
Definition st_warning (msg : string) : M unit := emit (UiWarning msg).
Definition st_info (msg : string) : M unit := emit (UiInfo msg).
Definition st_success (msg : string) : M unit := emit (UiSuccess msg).

Definition write_file (path : string) (data : bytes) : M unit :=
  fun w => (inr tt, mkWorld (<[path := data]> (files w)) (ui w) (temps w)).

Definition no_such_file (path : string) : exn :=
  "[Errno 2] No such file or directory: " ++ path.

Definition read_file (path : string) : M (bytes) :=
  fun w => match files w !! path with
           | Some data => (inr data, w)
           | None => (inl (no_such_file path), w)
           end.

(** [st.audio(path)] reads the file it is given. *)
Definition st_audio (path : string) : M unit :=
  let! _ := read_file path in emit (UiAudio path).

(** [os.path.exists(p) and os.path.getsize(p) > 0]. *)
Definition exists_nonempty (path : string) : M bool :=
  fun w => match files w !! path with
           | Some data => (inr (0 <? Z.of_nat (length data))%Z, w)
           | None => (inr false, w)
           end.

(** The world [w] with each of the files [l], given with their contents,
    stored in it. *)
Definition left_behind (l : list (string * bytes)) (w : World) : World :=
  mkWorld (foldr (fun f fs => <[f.1 := f.2]> fs) (files w) l) (ui w) (temps w).

(** Files appear on disk; which ones may depend on the world. *)
Definition leave_files (pick : World -> list (string * bytes)) : M unit :=
  fun w => (inr tt, left_behind (pick w) w).

(** ** Temporary files *)

(** [w'] still has every file of [w], and every temporary file handed out
    between [w] and [w'] is on disk in [w']. *)
Definition keeps_files (w w' : World) : Prop :=
  dom (files w) ⊆ dom (files w') /\
  exists new : list string, temps w' = (temps w ++ new)%list /\ forall p, p ∈ new -> p ∈ dom (files w').

(** A computation that deletes no file on any exit path. *)
Definition never_deletes {A : Type} (m : M A) : Prop :=
  forall w, keeps_files w (m w).2.

(** The spec's release guarantee: no temporary file handed out between [w]
    and [w'] is still on disk in [w']. *)
Definition temps_released (w w' : World) : Prop :=
  forall p, p ∈ temps w' -> p ∉ temps w -> files w' !! p = None.

(** ** Buffer operations

    Modelled from the spec: the methods of [pydub]'s [AudioSegment] that the
    program calls are not part of the sources.  Each transformation returns
    a new buffer and leaves its inputs untouched. *)

(** Modelled from the spec: [seg * n], the buffer repeated [n] times by
    whole-copy concatenation. *)
Definition seg_repeat (s : AudioSegment) (n : Z) : AudioSegment :=
  with_blocks s (concat (replicate (Z.to_nat n) (blocks s))).

(** Modelled from the spec: [seg[:n]], the first [n] milliseconds of the
    buffer, all of it when it is shorter.  The program only passes
    [n >= 0]. *)
Definition slice_to (s : AudioSegment) (n : Z) : AudioSegment :=
  with_blocks s (take (Z.to_nat n) (blocks s)).

(** The amplitude factor [i / n] of a linear ramp of [n] steps. *)
Definition ramp (i n : nat) : Q := (Z.of_nat i # Pos.of_nat n)%Q.

(** Number of milliseconds a fade of [d] ms covers on [s]: [d], or the whole
    buffer when it is shorter. *)
Definition fade_span (d : Z) (s : AudioSegment) : nat := Z.to_nat (Z.min d (len s)).

(** Modelled from the spec: [seg.fade_in(d)], a linear amplitude ramp from
    0.0 to 1.0 over the first [d] ms of the buffer, or over its entire
    length if shorter; the rest is left as it is. *)
Definition fade_in (d : Z) (s : AudioSegment) : AudioSegment :=
  let n := fade_span d s in
  with_blocks s
    (imap (fun i b => if (i <? n)%nat then scale_block (sample_width s) (ramp i n) b else b)
          (blocks s)).

(** Modelled from the spec: [seg.fade_out(d)], the symmetric ramp from 1.0
    to 0.0 over the last [d] ms of the buffer, or over its entire length if
    shorter. *)
Definition fade_out (d : Z) (s : AudioSegment) : AudioSegment :=
  let n := fade_span d s in
  let l := length (blocks s) in
  with_blocks s
    (imap (fun i b => if (l - n <=? i)%nat
                      then scale_block (sample_width s) (ramp (l - 1 - i) n) b else b)
          (blocks s)).

(** Modelled from the spec: [seg.set_channels(c)]: mono to [c] channels by
    duplication, [c] channels to mono by averaging; no other remapping is
    supported. *)
Definition set_channels (c : Z) (s : AudioSegment) : Exc AudioSegment :=
  if (c =? channels s)%Z then ret s
  else if (channels s =? 1)%Z then
    ret (mkSeg (frame_rate s) c (sample_width s)
           (map (map (fun f : frame => f ≫= replicate (Z.to_nat c))) (blocks s)))
  else if (c =? 1)%Z then
    ret (mkSeg (frame_rate s) c (sample_width s)
           (map (map (fun f : frame => [(foldr Z.add 0 f / channels s)%Z])) (blocks s)))
  else raise "AudioSegment.set_channels only supports mono-to-multi channel and multi-to-mono channel conversion".

(** Modelled from the spec: [a.overlay(b)], the sum per sample position of
    [a] and [b], clipped to the amplitude range of [a]'s sample format.  The
    result has [a]'s rate, channels and frames; where [b] has ended [a] is
    left as it is, and what [b] has beyond the end of [a] is dropped. *)
Definition overlay (a b : AudioSegment) : AudioSegment :=
  with_blocks a
    (zip_onto (zip_onto (zip_onto (add_sample (sample_width a)))) (blocks a) (blocks b)).

(** ** Widget values *)

(** An uploaded file: its name and its contents. *)
Record Upload := mkUpload { upload_name : string; upload_value : bytes }.

(** The widget values a button handler reads. *)
Record Inputs := mkInputs {
  text : string;
  voice_id : string;
  rate : Z;
  pitch : Z;
  use_music : bool;
  uploaded_music : option Upload;
  music_volume_pct : Z;
  fade_in_enabled : bool;
  fade_out_enabled : bool;
  user_filename : string;
  test_first : bool
}.

(** ** Presets and voices *)

(** Lines 10-18: [VOICES], in insertion order. *)
Definition VOICES : list (string * string) :=
  [ ("Jenny (US, Female)", "en-US-JennyNeural");
    ("Aria (US, Female)", "en-US-AriaNeural");
    ("Guy (US, Male)", "en-US-GuyNeural");
    ("Ryan (UK, Male)", "en-GB-RyanNeural");
    ("Thomas (UK, Male)", "en-GB-ThomasNeural");
    ("Prabhat (India, Male)", "en-IN-PrabhatNeural");
    ("Neerja (India, Female)", "en-IN-NeerjaNeural") ].

(** [list(VOICES.keys())]. *)
Definition voices_keys : list string := map fst VOICES.

(** [VOICES[label]]; a missing key raises [KeyError]. *)
Fixpoint dict_get (d : list (string * string)) (label : string) : Exc string :=
  match d with
  | [] => raise ("KeyError: " ++ label)
  | (k, v) :: d' => if String.eqb k label then ret v else dict_get d' label
  end.

(** Line 27. *)
Definition PRESET_FILE : string := "tts_presets.json".

(** A value stored under a key of a loaded JSON object: a string, an
    integer, or anything else. *)
Inductive JsonValue : Type :=
| JStr (s : string)
| JInt (z : Z)
| JOther.

(** What [json.load] returns: an object, as a dictionary from its keys, or a
    value that is no object. *)
Inductive Json : Type :=
| JObject (d : gmap string JsonValue)
| JNotObject.

(** The dictionary [{"voice": voice, "rate": rate, "pitch": pitch}] of
    lines 32 and 43. *)
Definition preset_json (voice : string) (rate pitch : Z) : Json :=
  JObject (<["voice" := JStr voice]> (<["rate" := JInt rate]> (<["pitch" := JInt pitch]> ∅))).

(** Line 43: the preset returned when none can be loaded. *)
Definition default_preset : Json :=
  preset_json (match voices_keys with k :: _ => k | [] => "" end) 100 0.

(** [presets[key]]: [KeyError] on a missing key, [TypeError] when [presets]
    is no object. *)
Definition getitem (presets : Json) (key : string) : Exc JsonValue :=
  match presets with
  | JObject d =>
      match d !! key with
      | Some v => ret v
      | None => raise ("KeyError: " ++ key)
      end
  | JNotObject => raise "TypeError: object is not subscriptable"
  end.

(** [keys.index(x)]: the first position of [x], [ValueError] when it is not
    in the list.  [i] is the position of the head of [keys]. *)
Fixpoint list_index_from (x : JsonValue) (keys : list string) (i : nat) : Exc nat :=
  match keys with
  | [] => raise "ValueError: value is not in list"
  | k :: keys' =>
      match x with
      | JStr s => if String.eqb k s then ret i else list_index_from x keys' (S i)
      | _ => list_index_from x keys' (S i)
      end
  end.

(** Line 150: [list(VOICES.keys()).index(presets["voice"])]. *)
Definition preset_voice_index (presets : Json) : Exc nat :=
  let* v := getitem presets "voice" in list_index_from v voices_keys 0.

(** ** String predicates for the statements below *)

Fixpoint has_dot (s : string) : bool :=
  match s with
  | EmptyString => false
  | String c s' => (Ascii.eqb c "."%char || has_dot s')%bool
  end.

(** The decoding format [load_music] declares for an extension. *)
Definition format_of_extension (ext : string) : option string :=
  if String.eqb (lower ext) "mp3" then Some "mp3"
  else if (String.eqb (lower ext) "wav" || String.eqb (lower ext) "wave")%bool
       then Some "wav" else None.

(** The widget values [i] with other Speed and Pitch settings. *)
Definition with_rate_pitch (i : Inputs) (r p : Z) : Inputs :=
  mkInputs (text i) (voice_id i) r p (use_music i) (uploaded_music i)
    (music_volume_pct i) (fade_in_enabled i) (fade_out_enabled i)
    (user_filename i) (test_first i).

(** ** A small concrete environment

    A toy codec and toy collaborators on which the program can be run: one
    byte of a file is one millisecond of mono 16-bit audio at 1 kHz, a file
    whose first byte is zero does not decode, and a buffer of more than eight
    milliseconds does not encode. *)

Definition byte_of_Z (z : Z) : Byte.byte :=
  match Byte.of_N (Z.to_N (z mod 256)) with
  | Some b => b
  | None => Byte.x00
  end.

Definition Z_of_byte (b : Byte.byte) : Z := Z.of_N (Byte.to_N b).

Definition demo_db_to_float (db : Q) : Q :=
  if Qeq_bool db (-20) then (1 # 10)%Q
  else if Qle_bool 0 db then 1%Q else (1 # 2)%Q.

Definition demo_ratecv (from_rate to_rate : Z) (b : block) : block := b.

Definition demo_decode (fmt : option string) (data : bytes) : Exc AudioSegment :=
  match data with
  | Byte.x00 :: _ => raise "Decoding failed. ffmpeg returned error code: 1"
  | _ => ret (mkSeg 1000 1 2 (map (fun b => [[Z_of_byte b]]) data))
  end.

Definition demo_encode (opts : ExportOpts) (s : AudioSegment) : Exc bytes :=
  if (8 <? len s)%Z then raise "Encoding failed. ffmpeg/avlib returned error code: 1"
  else ret (map byte_of_Z (samples s)).

Definition demo_synthesize (text voice : string) : Exc bytes :=
  if is_empty voice then raise "No audio was received" else ret (list_byte_of_string text).

Definition demo_tempname (k : nat) (suffix : string) : string :=
  "/tmp/tmp" ++ pretty k ++ suffix.

(** A toy [strip], for ASCII white space only. *)
Definition demo_is_space (c : ascii) : bool :=
  let n := nat_of_ascii c in
  ((n =? 32)%nat || ((9 <=? n)%nat && (n <=? 13)%nat))%bool.

Fixpoint demo_lstrip (s : string) : string :=
  match s with
  | String c s' => if demo_is_space c then demo_lstrip s' else s
  | EmptyString => EmptyString
  end.

Fixpoint demo_rstrip (s : string) : string :=
  match s with
  | EmptyString => EmptyString
  | String c s' =>
      match demo_rstrip s' with
      | EmptyString => if demo_is_space c then EmptyString else String c EmptyString
      | t => String c t
      end
  end.

Definition demo_strip (s : string) : string := demo_rstrip (demo_lstrip s).

(** A toy synthesiser failure leaves the first byte of the text in the
    file. *)
Definition demo_partial_audio (text voice : string) : bytes :=
  take 1 (list_byte_of_string text).

(** A toy failed export leaves its two staging files: the raw audio and an
    empty encoder output. *)
Definition demo_leftovers (s : AudioSegment) (opts : ExportOpts) (w : World)
  : list (string * bytes) :=
  [("/tmp/export_data", map byte_of_Z (samples s)); ("/tmp/export_output", [])].

(** A mono 16-bit buffer at 1 kHz with one frame per listed sample. *)
Definition mono (xs : list Z) : AudioSegment :=
  mkSeg 1000 1 2 (map (fun x => [[x]]) xs).

Definition empty_world : World := mkWorld ∅ [] [].

(** A disk holding a voice file and a music file. *)
Definition demo_disk (voice music : bytes) : World :=
  mkWorld (<["voice.mp3" := voice]> (<["music.wav" := music]> ∅)) [] [].

(** The inputs of a click with a text and no music. *)
Definition demo_inputs (voice : string) : Inputs :=
  mkInputs "hi" voice 100 0 false None 30 false false "out" false.

(** A toy JSON codec for presets: the rate, the pitch, then the voice. *)
Definition demo_json_dumps (j : Json) : bytes :=
  match j with
  | JObject d =>
      match d !! "voice", d !! "rate", d !! "pitch" with
      | Some (JStr v), Some (JInt r), Some (JInt p) =>
          byte_of_Z r :: byte_of_Z p :: list_byte_of_string v
      | _, _, _ => []
      end
  | JNotObject => []
  end.

Definition demo_json_loads (data : bytes) : Exc Json :=
  match data with
  | r :: p :: v => ret (preset_json (string_of_list_byte v) (Z_of_byte r) (Z_of_byte p))
  | _ => raise "Expecting value: line 1 column 1 (char 0)"
  end.

(** The inputs of a click with a text and an uploaded [song.wav] at volume
    30, with the audio test ticked or not. *)
Definition demo_music_inputs (test : bool) : Inputs :=
  mkInputs "hi" "en-US-JennyNeural" 100 0 true
    (Some (mkUpload "song.wav" [Byte.x10; Byte.x20])) 30 false false "out" test.

(** A decoder whose buffers last two milliseconds and hold no frame. *)
Definition demo_decode_hollow (fmt : option string) (data : bytes) : Exc AudioSegment :=
  ret (mkSeg 1000 1 2 [[]; []]).

(** A disk holding a preset file. *)
Definition demo_preset_disk (data : bytes) : World :=
  mkWorld (<[PRESET_FILE := data]> ∅) [] [].

(** ** Line 77 in binary64 *)

Definition float_of_Z (z : Z) : PrimFloat.float :=
  if (z <? 0)%Z then PrimFloat.opp (PrimFloat.of_uint63 (Uint63.of_Z (- z)))
  else PrimFloat.of_uint63 (Uint63.of_Z z).

(** The double nearest to the literal [0.35]. *)
Definition double_0_35 : PrimFloat.float :=
  PrimFloat.div (float_of_Z 3152519739159347) (float_of_Z 9007199254740992).

(** [-30 + (music_volume_pct * 0.35)] as Python evaluates it on an integer
    percentage: one rounded product and one rounded sum of doubles. *)
Definition volume_db_binary64 (music_volume_pct : Z) : PrimFloat.float :=
  PrimFloat.add (float_of_Z (-30)) (PrimFloat.mul (float_of_Z music_volume_pct) double_0_35).

(** The double nearest to the rational [(7 * pct - 600) / 20]. *)
Definition volume_db_nearest (pct : Z) : PrimFloat.float :=
  PrimFloat.div (float_of_Z (7 * pct - 600)) (float_of_Z 20).

(** ** Stages of the mix, as the specification names them *)

Inductive Stage : Type :=
| Decode | Resample | Remap | Gain | Loop | Fade | Overlay | Export.

(** The spec's repetition count, [ceil(voice_frames / music_frames)]. *)
Definition spec_repetitions (voice_frames music_frames : Z) : Z :=
  (voice_frames + music_frames - 1) / music_frames.

(** The library calls of lines 72 to 90; a run of [mix_with_music] makes
    each of them at most once. *)
Inductive Call : Type :=
| CallSetFrameRate | CallSetChannels | CallGain | CallRepeat | CallSlice
| CallFadeIn | CallFadeOut | CallOverlay.

(** The stage a library call belongs to. *)
Definition stage_of (c : Call) : Stage :=
  match c with
  | CallSetFrameRate => Resample
  | CallSetChannels => Remap
  | CallGain => Gain
  | CallRepeat | CallSlice => Loop
  | CallFadeIn | CallFadeOut => Fade
  | CallOverlay => Overlay
  end.

(** The stages between decoding and export. *)
Definition pipeline_stage (st : Stage) : Prop := st <> Decode /\ st <> Export.

Definition call_eqb (c d : Call) : bool :=
  match c, d with
  | CallSetFrameRate, CallSetFrameRate | CallSetChannels, CallSetChannels
  | CallGain, CallGain | CallRepeat, CallRepeat | CallSlice, CallSlice
  | CallFadeIn, CallFadeIn | CallFadeOut, CallFadeOut | CallOverlay, CallOverlay => true
  | _, _ => false
  end.

(** A computation that returns, or raises in a stage that the model keeps
    track of. *)
Definition Staged (A : Type) : Type := (Stage * exn + A)%type.

Definition sbind {A B : Type} (m : Staged A) (k : A -> Staged B) : Staged B :=
  match m with
  | inl f => inl f
  | inr a => k a
  end.

Notation "'let+' x ':=' m 'in' k" := (sbind m (fun x => k))
  (at level 10, x name, m at level 100, k at level 200).

(** [m], with the stage [st] recorded should it raise. *)
Definition in_stage {A : Type} (st : Stage) (m : Exc A) : Staged A :=
  match m with
  | inl e => inl (st, e)
  | inr a => inr a
  end.

(** What Python propagates: the exception, without the stage. *)
Definition forget_stage {A : Type} (m : Staged A) : Exc A :=
  match m with
  | inl (_, e) => inl e
  | inr a => inr a
  end.

(** No library call raises. *)
Definition no_raise : Call -> option exn := fun _ => None.

(** The library call [c] raises [e]; no other call raises. *)
Definition raises_at (c : Call) (e : exn) : Call -> option exn :=
  fun d => if call_eqb d c then Some e else None.

(** The text of [audioop]'s size check, which [audioop.ratecv], [audioop.mul]
    and [audioop.add] share. *)
Definition audioop_size_error : exn := "not a whole number of frames".

(** A toy decoder under which a file declared as [wav] is stereo at 2 kHz. *)
Definition demo_decode_wide (fmt : option string) (data : bytes) : Exc AudioSegment :=
  match fmt with
  | Some f =>
      if String.eqb f "wav"
      then ret (mkSeg 2000 2 2
                  (map (fun b => [[Z_of_byte b; Z_of_byte b]; [Z_of_byte b; Z_of_byte b]]) data))
      else demo_decode fmt data
  | None => demo_decode fmt data
  end.

Section Engine.

(** *** External collaborators *)

(** [db_to_float]: the linear amplitude factor of a gain in decibels,
    [10 ** (db / 20)]. *)
Variable db_to_float : Q -> Q.

(** The resampling kernel: the frames of one millisecond at the first rate,
    converted to the second rate. *)
Variable ratecv : Z -> Z -> block -> block.

(** The codec: decoding file contents under an optional declared format,
    and encoding a buffer. *)
Variable decode : option string -> bytes -> Exc AudioSegment.
Variable encode : ExportOpts -> AudioSegment -> Exc bytes.

(** The speech synthesiser: the audio for a text and a voice. *)
Variable synthesize : string -> string -> Exc bytes.

(** The name the operating system picks for the [k]-th temporary file,
    given its suffix. *)
Variable tempname : nat -> string -> string.

(** [s.strip()]: Python's [str.strip], the string without the white space
    at its two ends.  Which characters are white space is settled by
    Python's Unicode tables, which are not part of the sources. *)
Variable strip : string -> string.

(** What the synthesiser had written to its output file when it raised. *)
Variable partial_audio : string -> string -> bytes.

(** The staging files [pydub]'s [export] leaves on disk when the encoder
    fails, with their contents; their names are picked by the operating
    system. *)
Variable export_leftovers : AudioSegment -> ExportOpts -> World -> list (string * bytes).

(** Modelled from the spec: [seg + db] (pydub's [apply_gain]), every sample
    multiplied by the linear factor of [db] decibels. *)
Definition apply_gain (db : Q) (s : AudioSegment) : AudioSegment :=
  with_blocks s (map (scale_block (sample_width s) (db_to_float db)) (blocks s)).

(** Modelled from the spec: [seg.set_frame_rate(r)], the buffer resampled
    to [r] Hz with its duration preserved. *)
Definition set_frame_rate (r : Z) (s : AudioSegment) : AudioSegment :=
  if (r =? frame_rate s)%Z then s
  else mkSeg r (channels s) (sample_width s) (map (ratecv (frame_rate s) r) (blocks s)).

(** *** [mix_with_music], lines 69 to 90: the mixing pipeline *)

(** Lines 72-75: format alignment. *)
Definition align (voice music : AudioSegment) : Exc AudioSegment :=
  let music :=
    if negb (frame_rate voice =? frame_rate music)%Z
    then set_frame_rate (frame_rate voice) music else music in
  if negb (channels voice =? channels music)%Z
  then set_channels (channels voice) music else ret music.

(** Line 77: [volume_db = -30 + (music_volume_pct * 0.35)]. *)
Definition volume_db (music_volume_pct : Z) : Q :=
  (-30 + inject_Z music_volume_pct * 0.35)%Q.

(** [a // b] on integers. *)
Definition floordiv (a b : Z) : Exc Z :=
  if (b =? 0)%Z then raise "integer division or modulo by zero" else ret (a / b)%Z.

(** Line 81: the factor [(len(voice) // len(music)) + 1]. *)
Definition loop_count (voice music : AudioSegment) : Exc Z :=
  let* q := floordiv (len voice) (len music) in ret (q + 1)%Z.

(** Lines 80-82: duration matching. *)
Definition match_duration (voice music : AudioSegment) : Exc AudioSegment :=
  let* music :=
    (if (len music <? len voice)%Z
     then let* n := loop_count voice music in ret (seg_repeat music n)
     else ret music) in
  ret (slice_to music (len voice)).

(** Lines 85-88: the optional fades. *)
Definition apply_fades (fade_in_flag fade_out_flag : bool) (music : AudioSegment)
  : AudioSegment :=
  let music := if fade_in_flag then fade_in 3000 music else music in
  if fade_out_flag then fade_out 3000 music else music.

(** Lines 72-88: the music as it is overlaid on the voice. *)
Definition prepare_music (voice music : AudioSegment) (music_volume_pct : Z)
    (fade_in_flag fade_out_flag : bool) : Exc AudioSegment :=
  let* music := align voice music in
  let music := apply_gain (volume_db music_volume_pct) music in
  let* music := match_duration voice music in
  ret (apply_fades fade_in_flag fade_out_flag music).

(** Lines 69-90: the buffer [mixed] that is handed to the encoder. *)
Definition mix_buffers (voice music : AudioSegment) (music_volume_pct : Z)
    (fade_in_flag fade_out_flag : bool) : Exc AudioSegment :=
  if (music_volume_pct =? 0)%Z then ret voice
  else
    let* music := prepare_music voice music music_volume_pct fade_in_flag fade_out_flag in
    ret (overlay voice music).

(** *** Files and the codec *)

(** [AudioSegment.from_file(path, format=fmt)]; [from_mp3] and [from_wav]
    are this with the format fixed. *)
Definition from_file (path : string) (fmt : option string) : M AudioSegment :=
  let! data := read_file path in lift (decode fmt data).

(** Modelled from the spec: [seg.export(out_f, ...)] is a method of [pydub]
    and not part of the sources; the encoder is the spec's external
    collaborator.  The output file is opened for writing, which empties it,
    and the audio is staged in files of the export's own for the encoder.
    When the encoder returns, its output is written to the output file and
    the staging files are removed; when it raises, the output file stays
    empty and the staging files stay on disk. *)
Definition export (seg : AudioSegment) (out_f : string) (opts : ExportOpts) : M unit :=
  write_file out_f [] ;;;
  match encode opts seg with
  | inr data => write_file out_f data
  | inl e => leave_files (export_leftovers seg opts) ;;; lift (raise e)
  end.

(** [with tempfile.NamedTemporaryFile(delete=False, suffix=...) as f]: a new
    empty file that stays on disk when the block is left; the result is
    [f.name]. *)
Definition named_temporary_file (suffix : string) : M string :=
  fun w =>
    let name := tempname (length (temps w)) suffix in
    (inr name, mkWorld (<[name := []]> (files w)) (ui w) (temps w ++ [name])).

(** Lines 46-50: [generate_tts]; the rate and the pitch are not used.  The
    program calls it on a temporary file it has just created.  The
    synthesiser opens [filename] for writing and streams the audio into it:
    when it raises, the file holds what it had written by then, which is
    nothing when it raised before any audio arrived. *)
Definition generate_tts (text voice filename : string) (rate pitch : Z) : M unit :=
  write_file filename [] ;;;
  match synthesize text voice with
  | inr data => write_file filename data
  | inl e => write_file filename (partial_audio text voice) ;;; lift (raise e)
  end.

(** *** Lines 53-97: [mix_with_music] *)

(** Lines 56-63: the music file, decoded under the format its extension
    declares. *)
Definition load_music (music_path : string) : M AudioSegment :=
  let music_format := lower (split_dot_last music_path) in
  if String.eqb music_format "mp3" then from_file music_path (Some "mp3")
  else if (String.eqb music_format "wav" || String.eqb music_format "wave")%bool
       then from_file music_path (Some "wav")
       else from_file music_path None.

(** The keyword arguments of the export on line 92. *)
Definition mix_export_opts : ExportOpts := mkOpts "mp3" (Some "192k") ["-q:a"; "2"].

Definition mix_with_music (voice_path music_path output_path : string)
    (music_volume_pct : Z) (fade_in_flag fade_out_flag : bool) : M bool :=
  try_except
    (let! voice := from_file voice_path (Some "mp3") in
     let! music := load_music music_path in
     if ((len voice =? 0)%Z || (len music =? 0)%Z)%bool then
       st_error "❌ One of the audio files is empty or corrupted" ;;;
       mret false
     else
       let! mixed :=
         lift (mix_buffers voice music music_volume_pct fade_in_flag fade_out_flag) in
       export mixed output_path mix_export_opts ;;;
       exists_nonempty output_path)
    (fun e => st_error ("❌ Error mixing audio: " ++ e) ;;; mret false).

(** What the caller of [mix_with_music] gets to see of a run: the returned
    value and the messages shown. *)
Definition observation (r : Exc bool * World) : Exc bool * list UiEvent :=
  (r.1, ui r.2).

(** *** Library calls that raise

    The buffer operations above always return.  In a run of the program the
    library calls of lines 72 to 90 can raise as well, on a buffer that
    [pydub] or [audioop] rejects.  [raised] names the calls that raise in the
    run at hand, each with the exception it raises there. *)
Variable raised : Call -> option exn.

(** The library call [c], whose result is [m] when it is not one of the
    calls that raise.  The stage of the call is recorded with the
    exception. *)
Definition attempt {A : Type} (c : Call) (m : Exc A) : Staged A :=
  match raised c with
  | Some e => inl (stage_of c, e)
  | None => in_stage (stage_of c) m
  end.

(** Lines 69-90 with library calls that can raise: the buffer [mixed], or
    the exception with the stage it was raised in. *)
Definition mix_stages (voice music : AudioSegment) (music_volume_pct : Z)
    (fade_in_flag fade_out_flag : bool) : Staged AudioSegment :=
  if (music_volume_pct =? 0)%Z then inr voice
  else
    let+ music :=
      (if negb (frame_rate voice =? frame_rate music)%Z
       then attempt CallSetFrameRate (ret (set_frame_rate (frame_rate voice) music))
       else inr music) in
    let+ music :=
      (if negb (channels voice =? channels music)%Z
       then attempt CallSetChannels (set_channels (channels voice) music)
       else inr music) in
    let+ music := attempt CallGain (ret (apply_gain (volume_db music_volume_pct) music)) in
    let+ music :=
      (if (len music <? len voice)%Z
       then let+ n := in_stage Loop (loop_count voice music) in
            attempt CallRepeat (ret (seg_repeat music n))
       else inr music) in
    let+ music := attempt CallSlice (ret (slice_to music (len voice))) in
    let+ music :=
      (if fade_in_flag then attempt CallFadeIn (ret (fade_in 3000 music)) else inr music) in
    let+ music :=
      (if fade_out_flag then attempt CallFadeOut (ret (fade_out 3000 music)) else inr music) in
    attempt CallOverlay (ret (overlay voice music)).

(** Lines 53-97, [mix_with_music], in a run in which the library calls that
    [raised] names raise.  The handler of line 95 receives the exception
    alone. *)
Definition mix_with_music_under (voice_path music_path output_path : string)
    (music_volume_pct : Z) (fade_in_flag fade_out_flag : bool) : M bool :=
  try_except
    (let! voice := from_file voice_path (Some "mp3") in
     let! music := load_music music_path in
     if ((len voice =? 0)%Z || (len music =? 0)%Z)%bool then
       st_error "❌ One of the audio files is empty or corrupted" ;;;
       mret false
     else
       let! mixed :=
         lift (forget_stage
                 (mix_stages voice music music_volume_pct fade_in_flag fade_out_flag)) in
       export mixed output_path mix_export_opts ;;;
       exists_nonempty output_path)
    (fun e => st_error ("❌ Error mixing audio: " ++ e) ;;; mret false).

(** The stage in which a run of [mix_with_music] raises, and the exception
    raised there; [None] when no stage raises. *)
Definition mix_failure (voice_path music_path : string) (music_volume_pct : Z)
    (fade_in_flag fade_out_flag : bool) (w : World) : option (Stage * exn) :=
  match (from_file voice_path (Some "mp3") w).1 with
  | inl e => Some (Decode, e)
  | inr voice =>
      match (load_music music_path w).1 with
      | inl e => Some (Decode, e)
      | inr music =>
          if ((len voice =? 0)%Z || (len music =? 0)%Z)%bool then None
          else
            match mix_stages voice music music_volume_pct fade_in_flag fade_out_flag with
            | inl failure => Some failure
            | inr mixed =>
                match encode mix_export_opts mixed with
                | inl e => Some (Export, e)
                | inr _ => None
                end
            end
      end
  end.

(** The world a failed export of [mixed] to [output_path] leaves of [w]: the
    output file is empty and the staging files of the export are on disk. *)
Definition after_failed_export (w : World) (output_path : string) (mixed : AudioSegment)
  : World :=
  let w' := mkWorld (<[output_path := []]> (files w)) (ui w) (temps w) in
  left_behind (export_leftovers mixed mix_export_opts w') w'.

(** *** Lines 100-116: [test_audio_files] *)

(** Lines 104-107: the buffer [test_mixed]. *)
Definition test_mix (voice music : AudioSegment) : AudioSegment :=
  let test_music := apply_gain (-20) music in
  let test_music := slice_to test_music (Z.min (len voice) 5000) in
  let test_voice := slice_to voice (Z.min (len voice) 5000) in
  overlay test_voice test_music.

Definition test_audio_files (voice_path music_path : string) : M bool :=
  try_except
    (let! voice := from_file voice_path None in
     let! music := from_file music_path None in
     let test_mixed := test_mix voice music in
     let! test_file := named_temporary_file ".mp3" in
     export test_mixed test_file (mkOpts "mp3" None []) ;;;
     st_audio test_file ;;;
     mret true)
    (fun e => st_error ("❌ Audio test failed: " ++ e) ;;; mret false).

(** *** Lines 163-250: the Preview and Download buttons *)

(** [use_music and uploaded_music and music_volume_pct > 0]: the upload to
    mix, if any. *)
Definition music_to_mix (i : Inputs) : option Upload :=
  if (use_music i && (0 <? music_volume_pct i)%Z)%bool then uploaded_music i else None.

(** Lines 176-179 and 216-219: the upload staged in a temporary file. *)
Definition stage_music (up : Upload) : M string :=
  let music_ext := split_dot_last (upload_name up) in
  let! tmp_music := named_temporary_file ("." ++ music_ext) in
  write_file tmp_music (upload_value up) ;;;
  mret tmp_music.

(** Lines 165-199: what a click on Preview does. *)
Definition preview_clicked (i : Inputs) : M unit :=
  if is_empty (strip (text i)) then st_warning "Please enter some text!"
  else
    try_except
      (let! tmp_voice := named_temporary_file ".mp3" in
       generate_tts (text i) (voice_id i) tmp_voice (rate i) (pitch i) ;;;
       let! final_preview_path :=
         (match music_to_mix i with
          | Some up =>
              let! music_path := stage_music up in
              let! preview_output := named_temporary_file ".mp3" in
              let! success :=
                mix_with_music tmp_voice music_path preview_output
                  (music_volume_pct i) (fade_in_enabled i) (fade_out_enabled i) in
              if success : bool
              then st_success "✅ Preview with music ready" ;;; mret preview_output
              else mret tmp_voice
          | None => mret tmp_voice
          end) in
       st_audio final_preview_path)
      (fun e => st_error ("Error generating preview: " ++ e)).

(** Line 241: [f"{user_filename.strip() or 'output'}.mp3"]. *)
Definition download_name (i : Inputs) : string :=
  (if is_empty (strip (user_filename i)) then "output" else strip (user_filename i))
    ++ ".mp3".

(** Lines 203-250: what a click on Download does. *)
Definition download_clicked (i : Inputs) : M unit :=
  if is_empty (strip (text i)) then st_warning "Please enter some text!"
  else
    try_except
      (let! tmp_voice := named_temporary_file ".mp3" in
       generate_tts (text i) (voice_id i) tmp_voice (rate i) (pitch i) ;;;
       let! final_output :=
         (match music_to_mix i with
          | Some up =>
              st_info "🎵 Mixing with background music..." ;;;
              let! music_path := stage_music up in
              let! mixed_output := named_temporary_file ".mp3" in
              (if test_first i
               then let! _ := test_audio_files tmp_voice music_path in mret tt
               else mret tt) ;;;
              let! success :=
                mix_with_music tmp_voice music_path mixed_output
                  (music_volume_pct i) (fade_in_enabled i) (fade_out_enabled i) in
              if success : bool
              then st_success "✅ Audio mixed and ready" ;;; mret mixed_output
              else mret tmp_voice
          | None => mret tmp_voice
          end) in
       let! data := read_file final_output in
       emit (UiDownloadButton data (download_name i)))
      (fun e => st_error ("Error generating audio: " ++ e)).

(** *** Lines 26-43 and 154-156: presets *)

(** [json.dump] on a preset and [json.load]. *)
Variable json_dumps : Json -> bytes.
Variable json_loads : bytes -> Exc Json.

(** [os.path.exists(path)]. *)
Definition path_exists (path : string) : M bool :=
  fun w => (inr (bool_decide (is_Some (files w !! path))), w).

(** Lines 29-34: [save_presets]. *)
Definition save_presets (voice : string) (rate pitch : Z) : M unit :=
  try_except
    (write_file PRESET_FILE [] ;;;
     write_file PRESET_FILE (json_dumps (preset_json voice rate pitch)))
    (fun e => st_error ("Error saving presets: " ++ e)).

(** Lines 36-43: [load_presets]. *)
Definition load_presets : M Json :=
  let! loaded :=
    try_except
      (let! present := path_exists PRESET_FILE in
       if present : bool
       then let! data := read_file PRESET_FILE in
            let! j := lift (json_loads data) in
            mret (Some j)
       else mret None)
      (fun e => st_warning ("Could not load presets: " ++ e) ;;; mret None) in
  match loaded with
  | Some j => mret j
  | None => mret default_preset
  end.

(** Lines 154-156: what a click on Save Preset does. *)
Definition save_clicked (voice_label : string) (rate pitch : Z) : M unit :=
  save_presets voice_label rate pitch ;;;
  st_success "Preset saved!".

(** *** Outcomes of [mix_with_music], for the statements below *)

(** The message of line 66. *)
Definition empty_audio_error : UiEvent :=
  UiError "❌ One of the audio files is empty or corrupted".

(** The message of line 96 for the exception [e]. *)
Definition mixing_error (e : exn) : UiEvent :=
  UiError ("❌ Error mixing audio: " ++ e).

(** The world [w] after the messages [evs] were shown. *)
Definition shown (w : World) (evs : list UiEvent) : World :=
  mkWorld (files w) (ui w ++ evs)%list (temps w).

(** The world [w] after [data] was stored in [path]. *)
Definition stored (w : World) (path : string) (data : bytes) : World :=
  mkWorld (<[path := data]> (files w)) (ui w) (temps w).

(** ** Lengths and shapes *)

Lemma zip_onto_length {A : Type} (f : A -> A -> A) (xs ys : list A) :
  length (zip_onto f xs ys) = length xs.
Proof.
  revert ys. induction xs as [|x xs IH]; intros [|y ys]; simpl; auto.
Qed.

Lemma zip_onto_nil_r {A : Type} (f : A -> A -> A) (xs : list A) :
  zip_onto f xs [] = xs.
Proof. destruct xs; reflexivity. Qed.

(** Overlaying keeps the number of frames of every millisecond. *)
Lemma zip_onto_frames (g : frame -> frame -> frame) (bs cs : list block) :
  map (@length frame) (zip_onto (zip_onto g) bs cs) = map (@length frame) bs.
Proof.
  revert cs. induction bs as [|b bs IH]; intros [|c cs]; simpl; auto.
  rewrite zip_onto_length. f_equal. apply IH.
Qed.

Lemma overlay_frame_count (a b : AudioSegment) :
  frame_count (overlay a b) = frame_count a.
Proof. unfold frame_count, overlay. simpl. now rewrite zip_onto_frames. Qed.

Lemma overlay_len (a b : AudioSegment) : len (overlay a b) = len a.
Proof. unfold len, overlay. simpl. now rewrite zip_onto_length. Qed.

Lemma overlay_format (a b : AudioSegment) :
  frame_rate (overlay a b) = frame_rate a /\ channels (overlay a b) = channels a /\
  sample_width (overlay a b) = sample_width a.
Proof. repeat split. Qed.

Lemma apply_gain_len (db : Q) (s : AudioSegment) : len (apply_gain db s) = len s.
Proof. unfold len, apply_gain. simpl. now rewrite length_map. Qed.

Lemma set_frame_rate_len (r : Z) (s : AudioSegment) : len (set_frame_rate r s) = len s.
Proof.
  unfold set_frame_rate. destruct (r =? frame_rate s)%Z; [reflexivity|].
  unfold len. simpl. now rewrite length_map.
Qed.

Lemma set_frame_rate_channels (r : Z) (s : AudioSegment) :
  channels (set_frame_rate r s) = channels s.
Proof. unfold set_frame_rate. now destruct (r =? frame_rate s)%Z. Qed.

Lemma set_channels_len (c : Z) (s s' : AudioSegment) :
  set_channels c s = inr s' -> len s' = len s.
Proof.
  unfold set_channels, ret, raise.
  repeat case_match; intros Hs; inversion Hs; subst; try reflexivity;
    unfold len; simpl; now rewrite length_map.
Qed.

(** Remapping succeeds between mono and stereo. *)
Lemma set_channels_ok (c : Z) (s : AudioSegment) :
  (c = 1 \/ c = 2) -> (channels s = 1 \/ channels s = 2) ->
  exists s', set_channels c s = inr s'.
Proof.
  intros Hc Hs. unfold set_channels, ret.
  destruct (c =? channels s)%Z eqn:E1; [eauto|].
  destruct (channels s =? 1)%Z eqn:E2; [eauto|].
  destruct (c =? 1)%Z eqn:E3; [eauto|]. lia.
Qed.

Lemma seg_repeat_len (s : AudioSegment) (n : Z) :
  0 <= n -> len (seg_repeat s n) = n * len s.
Proof.
  intros Hn. unfold len, seg_repeat. simpl.
  rewrite <- (Z2Nat.id n) at 2 by lia.
  induction (Z.to_nat n) as [|k IH]; simpl; [reflexivity|].
  rewrite length_app. lia.
Qed.

Lemma slice_to_len (s : AudioSegment) (n : Z) :
  0 <= n -> len (slice_to s n) = Z.min n (len s).
Proof. intros Hn. unfold len, slice_to. simpl. rewrite length_take. lia. Qed.

Lemma fade_in_len (d : Z) (s : AudioSegment) : len (fade_in d s) = len s.
Proof. unfold len, fade_in. simpl. now rewrite length_imap. Qed.

Lemma fade_out_len (d : Z) (s : AudioSegment) : len (fade_out d s) = len s.
Proof. unfold len, fade_out. simpl. now rewrite length_imap. Qed.

Lemma apply_fades_len (fi fo : bool) (s : AudioSegment) :
  len (apply_fades fi fo s) = len s.
Proof.
  unfold apply_fades. destruct fi, fo;
    rewrite ?fade_out_len, ?fade_in_len; reflexivity.
Qed.

Lemma len_nonneg (s : AudioSegment) : 0 <= len s.
Proof. unfold len. lia. Qed.

(** ** The stages of the pipeline *)

Lemma align_ok (voice music : AudioSegment) :
  valid voice -> valid music ->
  exists aligned, align voice music = inr aligned /\ len aligned = len music.
Proof.
  intros (_ & Hv & _) (_ & Hm & _). unfold align.
  set (m1 := if negb (frame_rate voice =? frame_rate music)%Z
             then set_frame_rate (frame_rate voice) music else music).
  assert (Hlen : len m1 = len music).
  { unfold m1. destruct (negb _); [apply set_frame_rate_len | reflexivity]. }
  assert (Hch : channels m1 = channels music).
  { unfold m1. destruct (negb _); [apply set_frame_rate_channels | reflexivity]. }
  destruct (negb (channels voice =? channels m1)%Z).
  - destruct (set_channels_ok (channels voice) m1) as [s' Hs']; [assumption | lia |].
    exists s'. split; [assumption|]. rewrite <- Hlen. eapply set_channels_len; eauto.
  - exists m1. split; [reflexivity | assumption].
Qed.

(** What an aligned buffer can raise is the remapping error only, and
    alignment never changes the duration. *)
Lemma align_len (voice music aligned : AudioSegment) :
  align voice music = inr aligned -> len aligned = len music.
Proof.
  unfold align.
  set (m1 := if negb (frame_rate voice =? frame_rate music)%Z
             then set_frame_rate (frame_rate voice) music else music).
  assert (Hlen : len m1 = len music).
  { unfold m1. destruct (negb _); [apply set_frame_rate_len | reflexivity]. }
  destruct (negb (channels voice =? channels m1)%Z); intros Ha.
  - rewrite <- Hlen. eapply set_channels_len; eauto.
  - inversion Ha; subst. assumption.
Qed.

(** The looped buffer is at least as long as the voice. *)
Lemma loop_covers (v m : Z) : 0 < m -> 0 <= v -> v < (v / m + 1) * m.
Proof.
  intros Hm Hv. pose proof (Z.div_mod v m ltac:(lia)).
  pose proof (Z.mod_pos_bound v m Hm). nia.
Qed.

Lemma match_duration_ok (voice music : AudioSegment) :
  0 < len music ->
  match_duration voice music =
    inr (slice_to
           (if (len music <? len voice)%Z
            then seg_repeat music (len voice / len music + 1) else music)
           (len voice)) /\
  forall matched, match_duration voice music = inr matched -> len matched = len voice.
Proof.
  intros Hm. pose proof (len_nonneg voice) as Hv.
  assert (E : match_duration voice music =
    inr (slice_to
           (if (len music <? len voice)%Z
            then seg_repeat music (len voice / len music + 1) else music)
           (len voice))).
  { unfold match_duration, loop_count, floordiv.
    destruct (len music <? len voice)%Z eqn:E; [|reflexivity].
    destruct (len music =? 0)%Z eqn:E0; [lia | reflexivity]. }
  split; [exact E|]. intros matched. rewrite E. intros Hx. inversion Hx; subst.
  rewrite slice_to_len by assumption.
  destruct (len music <? len voice)%Z eqn:Elt.
  - rewrite seg_repeat_len.
    + pose proof (loop_covers (len voice) (len music) Hm Hv). lia.
    + pose proof (Z.div_pos (len voice) (len music) Hv Hm). lia.
  - lia.
Qed.

Lemma prepare_music_ok (voice music : AudioSegment) (pct : Z) (fi fo : bool) :
  valid voice -> valid music -> 0 < len music ->
  exists prepared,
    prepare_music voice music pct fi fo = inr prepared /\ len prepared = len voice.
Proof.
  intros Hv Hm Hlen.
  destruct (align_ok voice music Hv Hm) as (aligned & Ha & Hal).
  unfold prepare_music. rewrite Ha. simpl.
  destruct (match_duration_ok voice (apply_gain (volume_db pct) aligned)) as [E Hl].
  { rewrite apply_gain_len. lia. }
  rewrite E. simpl. eexists. split; [reflexivity|].
  rewrite apply_fades_len. apply Hl. exact E.
Qed.

(** ** Frame count of the mix *)

(** C1: for valid non-empty voice and music buffers and a positive volume
    percentage, the mix is produced and has exactly the voice's frame
    count (and its duration, rate and channel count), whether the music was
    shorter or longer than the voice. *)
Theorem mix_keeps_voice_frame_count (voice music : AudioSegment) (pct : Z) (fi fo : bool) :
  valid voice -> valid music -> 0 < len voice -> 0 < len music -> 0 < pct ->
  exists mixed,
    mix_buffers voice music pct fi fo = inr mixed /\
    frame_count mixed = frame_count voice /\
    len mixed = len voice /\
    frame_rate mixed = frame_rate voice /\ channels mixed = channels voice.
Proof.
  intros Hv Hm _ Hlen Hpct.
  destruct (prepare_music_ok voice music pct fi fo Hv Hm Hlen) as (prepared & Hp & _).
  unfold mix_buffers. destruct (pct =? 0)%Z eqn:E; [lia|].
  rewrite Hp. simpl. eexists. split; [reflexivity|].
  rewrite overlay_frame_count, overlay_len. repeat split.
Qed.

(** ** Duration matching *)

Lemma floor_plus_one_vs_ceil (v m : Z) :
  0 < m -> 0 <= v ->
  v / m + 1 = spec_repetitions v m + (if (v mod m =? 0)%Z then 1 else 0).
Proof.
  intros Hm Hv. unfold spec_repetitions.
  pose proof (Z.div_mod v m ltac:(lia)) as Hdm.
  pose proof (Z.mod_pos_bound v m Hm) as Hb.
  destruct (v mod m =? 0)%Z eqn:E.
  - assert ((v + m - 1) / m = v / m); [|lia].
    symmetry. apply (Z.div_unique _ _ _ (m - 1)); lia.
  - assert ((v + m - 1) / m = v / m + 1); [|lia].
    symmetry. apply (Z.div_unique _ _ _ (v mod m - 1)); lia.
Qed.

(** C2, as the code has it: when the music is shorter than the voice, the
    gained music is repeated [len(voice) // len(music) + 1] times by
    whole-copy concatenation, which is [ceil(voice / music)] when the music
    length does not divide the voice length and one more when it does, and
    the concatenation is then truncated to exactly the voice's length. *)
Theorem loop_repeats_floor_plus_one (voice music : AudioSegment) :
  0 < len music -> len music < len voice ->
  let n := len voice / len music + 1 in
  loop_count voice music = inr n /\
  n = spec_repetitions (len voice) (len music)
      + (if (len voice mod len music =? 0)%Z then 1 else 0) /\
  blocks (seg_repeat music n) = concat (replicate (Z.to_nat n) (blocks music)) /\
  match_duration voice music = inr (slice_to (seg_repeat music n) (len voice)) /\
  blocks (slice_to (seg_repeat music n) (len voice))
    = take (Z.to_nat (len voice)) (concat (replicate (Z.to_nat n) (blocks music))) /\
  len (slice_to (seg_repeat music n) (len voice)) = len voice.
Proof.
  intros Hm Hlt n. pose proof (len_nonneg voice) as Hv.
  destruct (match_duration_ok voice music Hm) as [E Hl].
  assert (Elt : (len music <? len voice)%Z = true) by lia.
  rewrite Elt in E.
  split.
  { unfold loop_count, floordiv. destruct (len music =? 0)%Z eqn:E0; [lia|reflexivity]. }
  split; [apply floor_plus_one_vs_ceil; lia|].
  split; [reflexivity|].
  split; [exact E|].
  split; [reflexivity|].
  apply Hl. exact E.
Qed.

(** ** Runs of [mix_with_music] *)

Lemma from_file_run (path : string) (fmt : option string) (w : World) :
  from_file path fmt w = ((from_file path fmt w).1, w).
Proof.
  unfold from_file, mbind, read_file, lift. destruct (files w !! path); reflexivity.
Qed.

Lemma load_music_run (path : string) (w : World) :
  load_music path w = ((load_music path w).1, w).
Proof. unfold load_music. repeat case_match; apply from_file_run. Qed.

Lemma stored_twice (w : World) (path : string) (d1 d2 : bytes) :
  stored (stored w path d1) path d2 = stored w path d2.
Proof. unfold stored. simpl. now rewrite insert_insert_eq. Qed.

(** A run that raises while decoding: nothing is written and the exception
    text is shown. *)
Lemma mix_with_music_voice_raises (vp mp op : string) (pct : Z) (fi fo : bool)
    (w : World) (e : exn) :
  (from_file vp (Some "mp3") w).1 = inl e ->
  mix_with_music vp mp op pct fi fo w = (inr false, shown w [mixing_error e]).
Proof.
  intros Hv. unfold mix_with_music, try_except, mbind.
  rewrite (from_file_run vp), Hv. reflexivity.
Qed.

Lemma mix_with_music_music_raises (vp mp op : string) (pct : Z) (fi fo : bool)
    (w : World) (voice : AudioSegment) (e : exn) :
  (from_file vp (Some "mp3") w).1 = inr voice ->
  (load_music mp w).1 = inl e ->
  mix_with_music vp mp op pct fi fo w = (inr false, shown w [mixing_error e]).
Proof.
  intros Hv Hm. unfold mix_with_music, try_except, mbind.
  rewrite (from_file_run vp), Hv, (load_music_run mp), Hm. reflexivity.
Qed.

(** A run on two decodable files, case by case. *)
Lemma mix_with_music_run (vp mp op : string) (pct : Z) (fi fo : bool)
    (w : World) (voice music : AudioSegment) :
  (from_file vp (Some "mp3") w).1 = inr voice ->
  (load_music mp w).1 = inr music ->
  mix_with_music vp mp op pct fi fo w =
    if ((len voice =? 0)%Z || (len music =? 0)%Z)%bool
    then (inr false, shown w [empty_audio_error])
    else match mix_buffers voice music pct fi fo with
         | inl e => (inr false, shown w [mixing_error e])
         | inr mixed =>
             match encode mix_export_opts mixed with
             | inl e => (inr false, shown (after_failed_export w op mixed) [mixing_error e])
             | inr data => (inr (0 <? Z.of_nat (length data))%Z, stored w op data)
             end
         end.
Proof.
  intros Hv Hm. unfold mix_with_music, try_except, mbind.
  rewrite (from_file_run vp), Hv, (load_music_run mp), Hm.
  destruct ((len voice =? 0)%Z || (len music =? 0)%Z)%bool; [reflexivity|].
  unfold lift. destruct (mix_buffers voice music pct fi fo) as [e|mixed]; [reflexivity|].
  unfold export, mbind, write_file, lift.
  destruct (encode mix_export_opts mixed) as [e|data]; [reflexivity|].
  unfold exists_nonempty, stored. simpl.
  rewrite lookup_insert_eq, insert_insert_eq. reflexivity.
Qed.

Lemma empty_input_fails_up_front_aux (vp mp op : string) (pct : Z) (fi fo : bool)
    (w : World) (voice music : AudioSegment) :
  (from_file vp (Some "mp3") w).1 = inr voice ->
  (load_music mp w).1 = inr music ->
  len voice = 0 \/ len music = 0 ->
  mix_with_music vp mp op pct fi fo w = (inr false, shown w [empty_audio_error]).
Proof.
  intros Hv Hm Hempty.
  rewrite (mix_with_music_run vp mp op pct fi fo w voice music Hv Hm).
  assert (E : ((len voice =? 0)%Z || (len music =? 0)%Z)%bool = true).
  { apply orb_true_iff. destruct Hempty; [left | right]; lia. }
  now rewrite E.
Qed.

(** ** The zero-volume shortcut *)

(** C3: with a volume of zero and non-empty voice and music, the buffer of
    the mix is the voice buffer itself, whatever the music, the resampler
    and the gain curve are, and the output file is the encoding of the
    voice buffer. *)
Theorem zero_volume_returns_voice (vp mp op : string) (fi fo : bool)
    (w : World) (voice music : AudioSegment) :
  (from_file vp (Some "mp3") w).1 = inr voice ->
  (load_music mp w).1 = inr music ->
  0 < len voice -> 0 < len music ->
  mix_buffers voice music 0 fi fo = inr voice /\
  forall data, encode mix_export_opts voice = inr data ->
    mix_with_music vp mp op 0 fi fo w
      = (inr (0 <? Z.of_nat (length data))%Z, stored w op data).
Proof.
  intros Hv Hm Hlv Hlm. split; [reflexivity|]. intros data Hd.
  rewrite (mix_with_music_run vp mp op 0 fi fo w voice music Hv Hm).
  destruct (len voice =? 0)%Z eqn:E1; [lia|].
  destruct (len music =? 0)%Z eqn:E2; [lia|]. simpl.
  unfold ret. rewrite Hd. reflexivity.
Qed.

(** ** Empty inputs *)

(** C6: when the decoded voice or the decoded music is empty, the run stops
    at the check of line 65: it returns [False], shows the empty-audio
    error, and leaves every file as it was, whatever the volume, the fades
    and the collaborators are. *)
Theorem empty_input_fails_up_front (vp mp op : string) (pct : Z) (fi fo : bool)
    (w : World) (voice music : AudioSegment) :
  (from_file vp (Some "mp3") w).1 = inr voice ->
  (load_music mp w).1 = inr music ->
  len voice = 0 \/ len music = 0 ->
  mix_with_music vp mp op pct fi fo w = (inr false, shown w [empty_audio_error]) /\
  files (mix_with_music vp mp op pct fi fo w).2 = files w.
Proof.
  intros Hv Hm Hempty.
  rewrite (empty_input_fails_up_front_aux vp mp op pct fi fo w voice music Hv Hm Hempty).
  split; reflexivity.
Qed.

(** C10: at volume zero the music is still decoded and checked: with a
    decodable, non-empty voice, a music file that does not decode makes the
    run return [False] with the exception shown, and an empty music buffer
    makes it return [False] with the empty-audio error; in neither case is
    the voice written to the output. *)
Theorem zero_volume_still_checks_music (vp mp op : string) (fi fo : bool)
    (w : World) (voice : AudioSegment) :
  (from_file vp (Some "mp3") w).1 = inr voice ->
  0 < len voice ->
  (forall e, (load_music mp w).1 = inl e ->
     mix_with_music vp mp op 0 fi fo w = (inr false, shown w [mixing_error e])) /\
  (forall music, (load_music mp w).1 = inr music -> len music = 0 ->
     mix_with_music vp mp op 0 fi fo w = (inr false, shown w [empty_audio_error])).
Proof.
  intros Hv Hlv. split.
  - intros e He. now apply mix_with_music_music_raises with (voice := voice).
  - intros music Hm Hz.
    apply (empty_input_fails_up_front_aux vp mp op 0 fi fo w voice music Hv Hm).
    now right.
Qed.

(** ** Failures *)

Lemma mix_with_music_under_voice_raises (vp mp op : string) (pct : Z) (fi fo : bool)
    (w : World) (e : exn) :
  (from_file vp (Some "mp3") w).1 = inl e ->
  mix_with_music_under vp mp op pct fi fo w = (inr false, shown w [mixing_error e]).
Proof.
  intros Hv. unfold mix_with_music_under, try_except, mbind.
  rewrite (from_file_run vp), Hv. reflexivity.
Qed.

Lemma mix_with_music_under_music_raises (vp mp op : string) (pct : Z) (fi fo : bool)
    (w : World) (voice : AudioSegment) (e : exn) :
  (from_file vp (Some "mp3") w).1 = inr voice ->
  (load_music mp w).1 = inl e ->
  mix_with_music_under vp mp op pct fi fo w = (inr false, shown w [mixing_error e]).
Proof.
  intros Hv Hm. unfold mix_with_music_under, try_except, mbind.
  rewrite (from_file_run vp), Hv, (load_music_run mp), Hm. reflexivity.
Qed.

(** A run on two decodable files in which library calls can raise, case by
    case. *)
Lemma mix_with_music_under_run (vp mp op : string) (pct : Z) (fi fo : bool)
    (w : World) (voice music : AudioSegment) :
  (from_file vp (Some "mp3") w).1 = inr voice ->
  (load_music mp w).1 = inr music ->
  mix_with_music_under vp mp op pct fi fo w =
    if ((len voice =? 0)%Z || (len music =? 0)%Z)%bool
    then (inr false, shown w [empty_audio_error])
    else match forget_stage (mix_stages voice music pct fi fo) with
         | inl e => (inr false, shown w [mixing_error e])
         | inr mixed =>
             match encode mix_export_opts mixed with
             | inl e => (inr false, shown (after_failed_export w op mixed) [mixing_error e])
             | inr data => (inr (0 <? Z.of_nat (length data))%Z, stored w op data)
             end
         end.
Proof.
  intros Hv Hm. unfold mix_with_music_under, try_except, mbind.
  rewrite (from_file_run vp), Hv, (load_music_run mp), Hm.
  destruct ((len voice =? 0)%Z || (len music =? 0)%Z)%bool; [reflexivity|].
  unfold lift.
  destruct (forget_stage (mix_stages voice music pct fi fo)) as [e|mixed]; [reflexivity|].
  unfold export, mbind, write_file, lift.
  destruct (encode mix_export_opts mixed) as [e|data]; [reflexivity|].
  unfold exists_nonempty, stored. simpl.
  rewrite lookup_insert_eq, insert_insert_eq. reflexivity.
Qed.

(** When no library call raises, the pipeline is [mix_buffers]. *)
Lemma mix_stages_no_raise (voice music : AudioSegment) (pct : Z) (fi fo : bool) :
  (forall c, raised c = None) ->
  forget_stage (mix_stages voice music pct fi fo) = mix_buffers voice music pct fi fo.
Proof.
  intros Hnone.
  unfold mix_stages, mix_buffers, prepare_music, align, match_duration, apply_fades, attempt.
  rewrite !Hnone.
  destruct (pct =? 0)%Z; [reflexivity|].
  destruct (negb (frame_rate voice =? frame_rate music)%Z); cbn [in_stage ret sbind bind].
  - destruct (negb (channels voice =? channels (set_frame_rate (frame_rate voice) music))%Z).
    + destruct (set_channels (channels voice) (set_frame_rate (frame_rate voice) music))
        as [e|m2]; cbn [in_stage ret sbind bind forget_stage]; [reflexivity|].
      destruct (len (apply_gain (volume_db pct) m2) <? len voice)%Z;
        [destruct (loop_count voice (apply_gain (volume_db pct) m2)) as [e|n]|];
        cbn [in_stage ret sbind bind forget_stage]; try reflexivity;
        destruct fi, fo; reflexivity.
    + cbn [in_stage ret sbind bind forget_stage].
      destruct (len (apply_gain (volume_db pct) (set_frame_rate (frame_rate voice) music))
                <? len voice)%Z;
        [destruct (loop_count voice
                     (apply_gain (volume_db pct) (set_frame_rate (frame_rate voice) music)))
           as [e|n]|];
        cbn [in_stage ret sbind bind forget_stage]; try reflexivity;
        destruct fi, fo; reflexivity.
  - destruct (negb (channels voice =? channels music)%Z).
    + destruct (set_channels (channels voice) music)
        as [e|m2]; cbn [in_stage ret sbind bind forget_stage]; [reflexivity|].
      destruct (len (apply_gain (volume_db pct) m2) <? len voice)%Z;
        [destruct (loop_count voice (apply_gain (volume_db pct) m2)) as [e|n]|];
        cbn [in_stage ret sbind bind forget_stage]; try reflexivity;
        destruct fi, fo; reflexivity.
    + cbn [in_stage ret sbind bind forget_stage].
      destruct (len (apply_gain (volume_db pct) music) <? len voice)%Z;
        [destruct (loop_count voice (apply_gain (volume_db pct) music)) as [e|n]|];
        cbn [in_stage ret sbind bind forget_stage]; try reflexivity;
        destruct fi, fo; reflexivity.
Qed.

(** When no library call raises, the run is the run of [mix_with_music]. *)
Lemma mix_with_music_under_no_raise (vp mp op : string) (pct : Z) (fi fo : bool)
    (w : World) :
  (forall c, raised c = None) ->
  mix_with_music vp mp op pct fi fo w = mix_with_music_under vp mp op pct fi fo w.
Proof.
  intros Hnone.
  destruct ((from_file vp (Some "mp3") w).1) as [e1|voice] eqn:Hv.
  { rewrite (mix_with_music_voice_raises vp mp op pct fi fo w e1 Hv).
    now rewrite (mix_with_music_under_voice_raises vp mp op pct fi fo w e1 Hv). }
  destruct ((load_music mp w).1) as [e2|music] eqn:Hm.
  { rewrite (mix_with_music_music_raises vp mp op pct fi fo w voice e2 Hv Hm).
    now rewrite (mix_with_music_under_music_raises vp mp op pct fi fo w voice e2 Hv Hm). }
  rewrite (mix_with_music_run vp mp op pct fi fo w voice music Hv Hm).
  rewrite (mix_with_music_under_run vp mp op pct fi fo w voice music Hv Hm).
  now rewrite (mix_stages_no_raise voice music pct fi fo Hnone).
Qed.

Lemma attempt_stage {A : Type} (c : Call) (m : Exc A) (st : Stage) (e : exn) :
  attempt c m = inl (st, e) -> pipeline_stage st.
Proof.
  unfold attempt, in_stage. intros H.
  assert (Hst : st = stage_of c).
  { destruct (raised c); [|destruct m]; inversion H; reflexivity. }
  subst st. destruct c; split; discriminate.
Qed.

Lemma sbind_raises {A B : Type} (m : Staged A) (k : A -> Staged B) (f : Stage * exn) :
  sbind m k = inl f -> m = inl f \/ exists a, m = inr a /\ k a = inl f.
Proof.
  destruct m as [f'|a]; simpl; intros H; [left; inversion H; reflexivity | right; eauto].
Qed.

Lemma mix_stages_stage (voice music : AudioSegment) (pct : Z) (fi fo : bool)
    (st : Stage) (e : exn) :
  mix_stages voice music pct fi fo = inl (st, e) -> pipeline_stage st.
Proof.
  unfold mix_stages. destruct (pct =? 0)%Z; [discriminate|]. intros H.
  apply sbind_raises in H as [H | (m1 & _ & H)].
  { destruct (negb _); [now apply attempt_stage in H | discriminate]. }
  apply sbind_raises in H as [H | (m2 & _ & H)].
  { destruct (negb _); [now apply attempt_stage in H | discriminate]. }
  apply sbind_raises in H as [H | (m3 & _ & H)].
  { now apply attempt_stage in H. }
  apply sbind_raises in H as [H | (m4 & _ & H)].
  { destruct (len m3 <? len voice)%Z; [|discriminate].
    apply sbind_raises in H as [H | (n & _ & H)].
    - unfold in_stage in H. destruct (loop_count voice m3); inversion H.
      split; discriminate.
    - now apply attempt_stage in H. }
  apply sbind_raises in H as [H | (m5 & _ & H)].
  { now apply attempt_stage in H. }
  apply sbind_raises in H as [H | (m6 & _ & H)].
  { destruct fi; [now apply attempt_stage in H | discriminate]. }
  apply sbind_raises in H as [H | (m7 & _ & H)].
  { destruct fo; [now apply attempt_stage in H | discriminate]. }
  now apply attempt_stage in H.
Qed.

(** C7, as the code has it: whatever stage raises, the caller gets the bare
    [False] and one message, "Error mixing audio:" followed by the text of
    the exception as the library raised it; the stage is not part of what
    surfaces.  A failure before the export leaves every file as it was; a
    failed export leaves the output file empty and the staging files of the
    export on disk. *)
Theorem mix_failure_reported (vp mp op : string) (pct : Z) (fi fo : bool)
    (w : World) (st : Stage) (e : exn) :
  mix_failure vp mp pct fi fo w = Some (st, e) ->
  let run := mix_with_music_under vp mp op pct fi fo w in
  (st <> Export -> run = (inr false, shown w [mixing_error e])) /\
  (st = Export ->
   exists mixed,
     encode mix_export_opts mixed = inl e /\
     run = (inr false, shown (after_failed_export w op mixed) [mixing_error e])) /\
  observation run = (inr false, (ui w ++ [mixing_error e])%list) /\
  ((forall c, raised c = None) -> mix_with_music vp mp op pct fi fo w = run).
Proof.
  intros Hf run.
  assert (Hkey :
    (st <> Export -> run = (inr false, shown w [mixing_error e])) /\
    (st = Export ->
     exists mixed,
       encode mix_export_opts mixed = inl e /\
       run = (inr false, shown (after_failed_export w op mixed) [mixing_error e]))).
  { unfold run, mix_failure in *.
    destruct ((from_file vp (Some "mp3") w).1) as [e1|voice] eqn:Hv.
    { inversion Hf; subst st e.
      rewrite (mix_with_music_under_voice_raises vp mp op pct fi fo w e1 Hv).
      split; [reflexivity | discriminate]. }
    destruct ((load_music mp w).1) as [e2|music] eqn:Hm.
    { inversion Hf; subst st e.
      rewrite (mix_with_music_under_music_raises vp mp op pct fi fo w voice e2 Hv Hm).
      split; [reflexivity | discriminate]. }
    rewrite (mix_with_music_under_run vp mp op pct fi fo w voice music Hv Hm).
    destruct ((len voice =? 0)%Z || (len music =? 0)%Z)%bool; [discriminate|].
    destruct (mix_stages voice music pct fi fo) as [[st' e']|mixed] eqn:Hstages.
    { inversion Hf; subst st' e'. cbn [forget_stage].
      destruct (mix_stages_stage voice music pct fi fo st e Hstages) as [_ Hne].
      split; [reflexivity | intros; contradiction]. }
    cbn [forget_stage].
    destruct (encode mix_export_opts mixed) as [e3|data] eqn:Henc; [|discriminate].
    inversion Hf; subst st e.
    split; [intros Hne; contradiction|].
    intros _. exists mixed. split; [exact Henc | reflexivity]. }
  destruct Hkey as [H1 H2].
  split; [exact H1|]. split; [exact H2|].
  split; [|apply mix_with_music_under_no_raise].
  destruct st; try (rewrite H1 by discriminate; reflexivity).
  destruct (H2 eq_refl) as (mixed & _ & E). rewrite E. reflexivity.
Qed.

(** [mix_failure] misses nothing: a run in which no stage raises shows no
    mixing error. *)
Lemma mix_failure_none (vp mp op : string) (pct : Z) (fi fo : bool) (w : World) :
  mix_failure vp mp pct fi fo w = None ->
  ui (mix_with_music_under vp mp op pct fi fo w).2 = ui w \/
  ui (mix_with_music_under vp mp op pct fi fo w).2 = (ui w ++ [empty_audio_error])%list.
Proof.
  unfold mix_failure. intros Hf.
  destruct ((from_file vp (Some "mp3") w).1) as [e1|voice] eqn:Hv; [discriminate|].
  destruct ((load_music mp w).1) as [e2|music] eqn:Hm; [discriminate|].
  rewrite (mix_with_music_under_run vp mp op pct fi fo w voice music Hv Hm).
  destruct ((len voice =? 0)%Z || (len music =? 0)%Z)%bool; [now right|].
  left. destruct (mix_stages voice music pct fi fo) as [f|mixed]; [discriminate|].
  cbn [forget_stage].
  destruct (encode mix_export_opts mixed); [discriminate | reflexivity].
Qed.

(** ** Gain *)

Lemma volume_db_linear (pct : Z) : (volume_db pct == (7 * pct - 600) # 20)%Q.
Proof. unfold volume_db, Qeq. simpl. lia. Qed.

Lemma scale_samples (w : Z) (k : Q) (bs : list block) :
  concat (concat (map (scale_block w k) bs)) = map (mul_sample w k) (concat (concat bs)).
Proof.
  unfold scale_block. rewrite !concat_map. reflexivity.
Qed.

Lemma mix_buffers_stages (voice music aligned : AudioSegment) (pct : Z) (fi fo : bool) :
  pct <> 0 -> align voice music = inr aligned ->
  mix_buffers voice music pct fi fo =
    (let* matched := match_duration voice (apply_gain (volume_db pct) aligned) in
     ret (overlay voice (apply_fades fi fo matched))).
Proof.
  intros Hp Ha. unfold mix_buffers, prepare_music.
  destruct (pct =? 0)%Z eqn:E; [lia|]. rewrite Ha. simpl.
  destruct (match_duration voice (apply_gain (volume_db pct) aligned)); reflexivity.
Qed.

(** C4: for a volume percentage from 1 to 100 the gain is
    [-30 + volume_percent * 0.35] decibels, which is +5 dB at 100 and
    -12.5 dB at 50; every sample of the aligned music is multiplied by the
    linear factor of that gain, and it is the gained buffer that is
    looped. *)
Theorem gain_is_linear_in_volume (voice music aligned : AudioSegment) (pct : Z)
    (fi fo : bool) :
  1 <= pct <= 100 ->
  align voice music = inr aligned ->
  (volume_db pct == -30 + inject_Z pct * (35 # 100))%Q /\
  (volume_db pct == (7 * pct - 600) # 20)%Q /\
  (volume_db 100 == 5)%Q /\ (volume_db 50 == - (25 # 2))%Q /\
  samples (apply_gain (volume_db pct) aligned)
    = map (mul_sample (sample_width aligned) (db_to_float (volume_db pct)))
          (samples aligned) /\
  mix_buffers voice music pct fi fo =
    (let* matched := match_duration voice (apply_gain (volume_db pct) aligned) in
     ret (overlay voice (apply_fades fi fo matched))).
Proof.
  intros Hp Ha.
  split; [unfold volume_db, Qeq; simpl; lia|].
  split; [apply volume_db_linear|].
  split; [reflexivity|]. split; [reflexivity|].
  split; [apply scale_samples|].
  apply mix_buffers_stages; [lia | assumption].
Qed.

(** ** Fades *)

Lemma ramp_start (n : nat) : (ramp 0 n == 0)%Q.
Proof. unfold ramp, Qeq. simpl. reflexivity. Qed.

Lemma ramp_end (n : nat) : (0 < n)%nat -> (ramp n n == 1)%Q.
Proof.
  intros Hn. unfold ramp, Qeq. cbn [Qnum Qden].
  rewrite Z.mul_1_r, Z.mul_1_l.
  rewrite <- (Nat2Pos.id n) at 1 by lia. apply positive_nat_Z.
Qed.

Lemma ramp_step (i n : nat) : (ramp (S i) n - ramp i n == 1 # Pos.of_nat n)%Q.
Proof.
  unfold ramp, Qeq, Qminus, Qplus, Qopp. cbn [Qnum Qden].
  rewrite Nat2Z.inj_succ, Pos2Z.inj_mul. ring.
Qed.

Lemma fade_in_lookup (d : Z) (m : AudioSegment) (i : nat) (b : block) :
  blocks m !! i = Some b ->
  blocks (fade_in d m) !! i =
    Some (if (i <? fade_span d m)%nat
          then scale_block (sample_width m) (ramp i (fade_span d m)) b else b).
Proof. intros Hb. unfold fade_in. simpl. now rewrite list_lookup_imap, Hb. Qed.

Lemma fade_out_lookup (d : Z) (m : AudioSegment) (i : nat) (b : block) :
  blocks m !! i = Some b ->
  blocks (fade_out d m) !! i =
    Some (if (length (blocks m) - fade_span d m <=? i)%nat
          then scale_block (sample_width m)
                 (ramp (length (blocks m) - 1 - i) (fade_span d m)) b
          else b).
Proof. intros Hb. unfold fade_out. simpl. now rewrite list_lookup_imap, Hb. Qed.

(** The fade-out is the fade-in played backwards. *)
Lemma fade_out_mirror (d : Z) (m : AudioSegment) :
  blocks (fade_out d m)
    = reverse (blocks (fade_in d (with_blocks m (reverse (blocks m))))).
Proof.
  unfold fade_out, fade_in, fade_span, len. simpl. rewrite length_reverse.
  set (n := Z.to_nat (Z.min d (Z.of_nat (length (blocks m))))).
  set (l := blocks m). apply list_eq. intros i.
  rewrite list_lookup_imap.
  destruct (decide (i < length l)%nat) as [Hi|Hi].
  - rewrite reverse_lookup by (rewrite length_imap, length_reverse; exact Hi).
    rewrite length_imap, length_reverse, list_lookup_imap.
    rewrite reverse_lookup by lia.
    replace (length l - S (length l - S i))%nat with i by lia.
    destruct (l !! i) as [b|]; [|reflexivity]. simpl. f_equal.
    replace (length l - 1 - i)%nat with (length l - S i)%nat by lia.
    destruct (length l - n <=? i)%nat eqn:E1;
      destruct (length l - S i <? n)%nat eqn:E2; try reflexivity.
    + apply Nat.leb_le in E1. apply Nat.ltb_ge in E2. lia.
    + apply Nat.leb_gt in E1. apply Nat.ltb_lt in E2. lia.
  - rewrite (lookup_ge_None_2 l) by lia. simpl. symmetry.
    apply lookup_ge_None_2. rewrite length_reverse, length_imap, length_reverse. lia.
Qed.

(** C5: in the mix the fades act on the music after it was looped and
    truncated to the voice's length, the fade-in first.  A fade-in scales
    millisecond [i] of its first [span] milliseconds by [i / span], from 0
    up to 1 where the untouched rest begins; a fade-out scales the last
    [span] milliseconds by the mirrored factors, down to 0 at the last
    millisecond of the mixed duration; [span] is 3000, or the whole
    length when that is shorter. *)
Theorem fades_follow_duration_matching (voice music : AudioSegment) (pct : Z)
    (fi fo : bool) :
  valid voice -> valid music -> 0 < len music -> pct <> 0 ->
  exists aligned matched,
    align voice music = inr aligned /\
    match_duration voice (apply_gain (volume_db pct) aligned) = inr matched /\
    mix_buffers voice music pct fi fo = inr (overlay voice (apply_fades fi fo matched)) /\
    len matched = len voice /\
    apply_fades fi fo matched
      = (let m := if fi then fade_in 3000 matched else matched in
         if fo then fade_out 3000 m else m) /\
    let span := Z.to_nat (Z.min 3000 (len voice)) in
    let n := length (blocks matched) in
    fade_span 3000 matched = span /\
    (forall m i b, len m = len voice -> blocks m !! i = Some b ->
       blocks (fade_in 3000 m) !! i =
         Some (if (i <? span)%nat
               then scale_block (sample_width m) (ramp i span) b else b)) /\
    (forall m i b, len m = len voice -> blocks m !! i = Some b ->
       blocks (fade_out 3000 m) !! i =
         Some (if (n - span <=? i)%nat
               then scale_block (sample_width m) (ramp (n - 1 - i) span) b else b)) /\
    (forall m, blocks (fade_out 3000 m)
               = reverse (blocks (fade_in 3000 (with_blocks m (reverse (blocks m)))))) /\
    (ramp 0 span == 0)%Q /\ ((0 < span)%nat -> (ramp span span == 1)%Q) /\
    (forall i, (ramp (S i) span - ramp i span == 1 # Pos.of_nat span)%Q).
Proof.
  intros Hv Hm Hlen Hp.
  destruct (align_ok voice music Hv Hm) as (aligned & Ha & Hal).
  destruct (match_duration_ok voice (apply_gain (volume_db pct) aligned)) as [E Hl].
  { rewrite apply_gain_len. lia. }
  exists aligned. eexists. split; [exact Ha|]. split; [exact E|]. split.
  { rewrite (mix_buffers_stages voice music aligned pct fi fo Hp Ha), E. reflexivity. }
  pose proof (Hl _ E) as Hlm. split; [exact Hlm|].
  split; [reflexivity|]. cbv zeta.
  assert (Hspan : forall m, len m = len voice ->
            fade_span 3000 m = Z.to_nat (Z.min 3000 (len voice))).
  { intros m Hm'. unfold fade_span. now rewrite Hm'. }
  assert (Hn : forall m, len m = len voice ->
            length (blocks m) = length (blocks
              (slice_to
                 (if (len (apply_gain (volume_db pct) aligned) <? len voice)%Z
                  then seg_repeat (apply_gain (volume_db pct) aligned)
                         (len voice / len (apply_gain (volume_db pct) aligned) + 1)
                  else apply_gain (volume_db pct) aligned) (len voice)))).
  { intros m Hm'. rewrite <- Hlm in Hm'. apply Nat2Z.inj. exact Hm'. }
  split; [now apply Hspan|].
  split.
  { intros m i b Hm' Hb. rewrite <- (Hspan m Hm'). now apply fade_in_lookup. }
  split.
  { intros m i b Hm' Hb. rewrite <- (Hspan m Hm'), <- (Hn m Hm').
    now apply fade_out_lookup. }
  split; [intros m; apply fade_out_mirror|].
  split; [apply ramp_start|]. split; [apply ramp_end|]. intros i. apply ramp_step.
Qed.

(** ** The diagnostic preview *)

Lemma mix_buffers_is_overlay (voice music mixed : AudioSegment) (pct : Z) (fi fo : bool) :
  pct <> 0 -> mix_buffers voice music pct fi fo = inr mixed ->
  exists prepared, mixed = overlay voice prepared.
Proof.
  intros Hp. unfold mix_buffers. destruct (pct =? 0)%Z eqn:E; [lia|].
  destruct (prepare_music voice music pct fi fo) as [e|prepared]; simpl; intros Hx;
    inversion Hx. now exists prepared.
Qed.

(** The world after a successful run of [test_audio_files] that encoded
    [data]. *)
Lemma test_audio_files_run (vp mp : string) (w : World) (voice music : AudioSegment)
    (data : bytes) :
  (from_file vp None w).1 = inr voice ->
  (from_file mp None w).1 = inr music ->
  encode (mkOpts "mp3" None []) (test_mix voice music) = inr data ->
  let name := tempname (length (temps w)) ".mp3" in
  test_audio_files vp mp w
    = (inr true,
       mkWorld (<[name := data]> (files w)) (ui w ++ [UiAudio name])%list
               (temps w ++ [name])%list).
Proof.
  intros Hv Hm Hd name. unfold test_audio_files, try_except, mbind.
  rewrite (from_file_run vp), Hv, (from_file_run mp), Hm.
  unfold named_temporary_file, export, mbind, write_file, lift. simpl.
  rewrite Hd. unfold st_audio, mbind, read_file, emit, mret. simpl.
  fold name. rewrite lookup_insert_eq, !insert_insert_eq. reflexivity.
Qed.

(** C9: the preview overlays the first [min(len(voice), 5000)] ms of the
    voice with the first [min(len(voice), 5000)] ms of the music after a
    gain of -20 dB on every music sample, whatever the volume percentage
    is; it lasts [min(len(voice), 5000)] ms, it is what
    [test_audio_files] encodes, and the full mix is an [overlay] on the
    voice as well. *)
Theorem preview_is_short_overlay (vp mp : string) (w : World)
    (voice music : AudioSegment) :
  (from_file vp None w).1 = inr voice ->
  (from_file mp None w).1 = inr music ->
  let k := Z.min (len voice) 5000 in
  test_mix voice music = overlay (slice_to voice k) (slice_to (apply_gain (-20) music) k) /\
  samples (apply_gain (-20) music)
    = map (mul_sample (sample_width music) (db_to_float (-20))) (samples music) /\
  len (test_mix voice music) = k /\
  (forall data, encode (mkOpts "mp3" None []) (test_mix voice music) = inr data ->
     let name := tempname (length (temps w)) ".mp3" in
     test_audio_files vp mp w
       = (inr true,
          mkWorld (<[name := data]> (files w)) (ui w ++ [UiAudio name])%list
                  (temps w ++ [name])%list)) /\
  (forall pct fi fo mixed, pct <> 0 -> mix_buffers voice music pct fi fo = inr mixed ->
     exists prepared, mixed = overlay voice prepared).
Proof.
  intros Hv Hm k. split; [reflexivity|].
  split; [apply scale_samples|].
  split.
  { unfold test_mix. rewrite overlay_len, slice_to_len.
    - fold k. lia.
    - pose proof (len_nonneg voice). lia. }
  split.
  { intros data Hd. now apply test_audio_files_run with (voice := voice) (music := music). }
  intros pct fi fo mixed. apply mix_buffers_is_overlay.
Qed.

(** ** Temporary files are never removed *)

Lemma keeps_files_refl (w : World) : keeps_files w w.
Proof.
  split; [reflexivity|]. exists []. split; [now rewrite app_nil_r|].
  intros p Hp. inversion Hp.
Qed.

Lemma keeps_files_trans (w1 w2 w3 : World) :
  keeps_files w1 w2 -> keeps_files w2 w3 -> keeps_files w1 w3.
Proof.
  intros (Hd1 & new1 & Ht1 & Hn1) (Hd2 & new2 & Ht2 & Hn2). split.
  - etransitivity; eassumption.
  - exists (new1 ++ new2)%list. split.
    + rewrite Ht2, Ht1. now rewrite app_assoc.
    + intros p Hp. apply elem_of_app in Hp as [Hp|Hp]; [apply Hd2|]; auto.
Qed.

Lemma nd_mret {A : Type} (a : A) : never_deletes (mret a).
Proof. intros w. apply keeps_files_refl. Qed.

Lemma nd_lift {A : Type} (m : Exc A) : never_deletes (lift m).
Proof. intros w. apply keeps_files_refl. Qed.

Lemma nd_bind {A B : Type} (m : M A) (k : A -> M B) :
  never_deletes m -> (forall a, never_deletes (k a)) -> never_deletes (mbind m k).
Proof.
  intros Hm Hk w. unfold mbind. specialize (Hm w).
  destruct (m w) as [[e|a] w1]; simpl in *; [exact Hm|].
  eapply keeps_files_trans; [exact Hm | apply Hk].
Qed.

Lemma nd_try {A : Type} (m : M A) (h : exn -> M A) :
  never_deletes m -> (forall e, never_deletes (h e)) -> never_deletes (try_except m h).
Proof.
  intros Hm Hh w. unfold try_except. specialize (Hm w).
  destruct (m w) as [[e|a] w1]; simpl in *; [|exact Hm].
  eapply keeps_files_trans; [exact Hm | apply Hh].
Qed.

Lemma nd_emit (e : UiEvent) : never_deletes (emit e).
Proof.
  intros w. split; [reflexivity|]. exists []. simpl.
  split; [now rewrite app_nil_r|]. intros p Hp. inversion Hp.
Qed.

Lemma nd_write_file (path : string) (data : bytes) : never_deletes (write_file path data).
Proof.
  intros w. split; [apply dom_insert_subseteq|]. exists []. simpl.
  split; [now rewrite app_nil_r|]. intros p Hp. inversion Hp.
Qed.

Lemma left_behind_dom (l : list (string * bytes)) (w : World) :
  dom (files w) ⊆ dom (files (left_behind l w)).
Proof.
  unfold left_behind. cbn [files].
  induction l as [|f l IH]; cbn [foldr]; [reflexivity|].
  etransitivity; [exact IH | apply dom_insert_subseteq].
Qed.

Lemma nd_leave_files (pick : World -> list (string * bytes)) :
  never_deletes (leave_files pick).
Proof.
  intros w. split; [apply left_behind_dom|]. exists []. simpl.
  split; [now rewrite app_nil_r|]. intros p Hp. inversion Hp.
Qed.

Lemma nd_read_file (path : string) : never_deletes (read_file path).
Proof.
  intros w. unfold read_file. destruct (files w !! path); apply keeps_files_refl.
Qed.

Lemma nd_exists_nonempty (path : string) : never_deletes (exists_nonempty path).
Proof.
  intros w. unfold exists_nonempty. destruct (files w !! path); apply keeps_files_refl.
Qed.

Lemma nd_named_temporary_file (suffix : string) :
  never_deletes (named_temporary_file suffix).
Proof.
  intros w. unfold named_temporary_file. simpl.
  split; [apply dom_insert_subseteq|].
  eexists; split; [reflexivity|]. intros p Hp.
  apply list_elem_of_singleton in Hp. subst p.
  apply elem_of_dom. cbn [files snd]. rewrite lookup_insert_eq. eauto.
Qed.

Ltac never_deletes_step :=
  first
    [ apply nd_mret | apply nd_lift | apply nd_emit | apply nd_write_file
    | apply nd_leave_files | apply nd_read_file | apply nd_exists_nonempty
    | apply nd_named_temporary_file
    | apply nd_bind; [|intro] | apply nd_try; [|intro]
    | match goal with
      | |- never_deletes (if ?b then _ else _) => destruct b
      | |- never_deletes (match ?x with _ => _ end) => destruct x
      end ].

Ltac never_deletes_auto := repeat never_deletes_step.

Lemma nd_from_file (path : string) (fmt : option string) :
  never_deletes (from_file path fmt).
Proof. unfold from_file. never_deletes_auto. Qed.

Lemma nd_export (seg : AudioSegment) (out_f : string) (opts : ExportOpts) :
  never_deletes (export seg out_f opts).
Proof. unfold export. never_deletes_auto. Qed.

Lemma nd_generate_tts (t v f : string) (r p : Z) : never_deletes (generate_tts t v f r p).
Proof. unfold generate_tts. never_deletes_auto. Qed.

Lemma nd_mix_with_music (vp mp op : string) (pct : Z) (fi fo : bool) :
  never_deletes (mix_with_music vp mp op pct fi fo).
Proof.
  unfold mix_with_music, load_music, st_error.
  repeat first [ apply nd_from_file | apply nd_export | never_deletes_step ].
Qed.

Lemma nd_test_audio_files (vp mp : string) : never_deletes (test_audio_files vp mp).
Proof.
  unfold test_audio_files, st_audio, st_error.
  repeat first [ apply nd_from_file | apply nd_export | never_deletes_step ].
Qed.

Lemma nd_stage_music (up : Upload) : never_deletes (stage_music up).
Proof. unfold stage_music. never_deletes_auto. Qed.

Lemma nd_preview_clicked (i : Inputs) : never_deletes (preview_clicked i).
Proof.
  unfold preview_clicked, st_warning, st_error, st_success, st_audio.
  repeat first [ apply nd_generate_tts | apply nd_stage_music | apply nd_mix_with_music
               | never_deletes_step ].
Qed.

Lemma nd_download_clicked (i : Inputs) : never_deletes (download_clicked i).
Proof.
  unfold download_clicked, st_warning, st_error, st_success, st_info.
  repeat first [ apply nd_generate_tts | apply nd_stage_music | apply nd_mix_with_music
               | apply nd_test_audio_files | never_deletes_step ].
Qed.

(** A block that opens with a temporary file: the file is handed out first
    and is on disk however the block and its handler end. *)
Lemma temp_then_rest {A : Type} (suffix : string) (k : string -> M A) (h : exn -> M A)
    (w : World) :
  (forall a, never_deletes (k a)) -> (forall e, never_deletes (h e)) ->
  let name := tempname (length (temps w)) suffix in
  let w' := (try_except (mbind (named_temporary_file suffix) k) h w).2 in
  (exists rest, temps w' = (temps w ++ name :: rest)%list) /\ name ∈ dom (files w').
Proof.
  intros Hk Hh name w'.
  set (w1 := mkWorld (<[name := []]> (files w)) (ui w) (temps w ++ [name])%list).
  assert (Hw' : w' = (try_except (k name) h w1).2) by reflexivity.
  destruct (nd_try (k name) h (Hk name) Hh w1) as (Hd & new & Ht & _).
  rewrite <- Hw' in Hd, Ht. split.
  - exists new. rewrite Ht. simpl. now rewrite <- app_assoc.
  - apply Hd. apply elem_of_dom. simpl. rewrite lookup_insert_eq. eauto.
Qed.

(** C8, as the code has it: the temporary files are created with
    [delete=False] and nothing removes them.  On every exit path of the
    Preview handler, of the Download handler and of [test_audio_files], each
    file that was on disk is still there and so is each temporary file
    created on the way; with a text to speak, the temporary voice file is
    created and stays on disk. *)
Theorem temporary_files_persist (i : Inputs) (vp mp : string) (w : World) :
  keeps_files w (preview_clicked i w).2 /\
  keeps_files w (download_clicked i w).2 /\
  keeps_files w (test_audio_files vp mp w).2 /\
  (is_empty (strip (text i)) = false ->
   let name := tempname (length (temps w)) ".mp3" in
   ((exists rest, temps (preview_clicked i w).2 = (temps w ++ name :: rest)%list) /\
    name ∈ dom (files (preview_clicked i w).2)) /\
   ((exists rest, temps (download_clicked i w).2 = (temps w ++ name :: rest)%list) /\
    name ∈ dom (files (download_clicked i w).2))).
Proof.
  split; [apply nd_preview_clicked|].
  split; [apply nd_download_clicked|].
  split; [apply nd_test_audio_files|].
  intros Htext name. split.
  - unfold preview_clicked. rewrite Htext. apply temp_then_rest.
    + intros a. unfold st_success, st_audio.
      repeat first [ apply nd_generate_tts | apply nd_stage_music | apply nd_mix_with_music
                   | never_deletes_step ].
    + intros e. unfold st_error. never_deletes_auto.
  - unfold download_clicked. rewrite Htext. apply temp_then_rest.
    + intros a. unfold st_success, st_info.
      repeat first [ apply nd_generate_tts | apply nd_stage_music | apply nd_mix_with_music
                   | apply nd_test_audio_files | never_deletes_step ].
    + intros e. unfold st_error. never_deletes_auto.
Qed.

(** * Further properties of the code *)

(** ** What [mix_with_music] returns and touches *)

(** Every run of [mix_with_music] ends in one of three ways. *)
Lemma mix_with_music_cases (vp mp op : string) (pct : Z) (fi fo : bool) (w : World) :
  (exists msg, mix_with_music vp mp op pct fi fo w = (inr false, shown w [UiError msg])) \/
  (exists e mixed,
     encode mix_export_opts mixed = inl e /\
     mix_with_music vp mp op pct fi fo w
       = (inr false, shown (after_failed_export w op mixed) [mixing_error e])) \/
  (exists voice music mixed data,
     (from_file vp (Some "mp3") w).1 = inr voice /\
     (load_music mp w).1 = inr music /\
     0 < len voice /\ 0 < len music /\
     mix_buffers voice music pct fi fo = inr mixed /\
     encode mix_export_opts mixed = inr data /\
     mix_with_music vp mp op pct fi fo w
       = (inr (0 <? Z.of_nat (length data))%Z, stored w op data)).
Proof.
  destruct ((from_file vp (Some "mp3") w).1) as [e1|voice] eqn:Hv.
  { left. eexists.
    rewrite (mix_with_music_voice_raises vp mp op pct fi fo w e1 Hv). reflexivity. }
  destruct ((load_music mp w).1) as [e2|music] eqn:Hm.
  { left. eexists.
    rewrite (mix_with_music_music_raises vp mp op pct fi fo w voice e2 Hv Hm). reflexivity. }
  rewrite (mix_with_music_run vp mp op pct fi fo w voice music Hv Hm).
  destruct ((len voice =? 0)%Z || (len music =? 0)%Z)%bool eqn:E.
  { left. eexists. reflexivity. }
  apply orb_false_iff in E as [E1 E2].
  pose proof (len_nonneg voice). pose proof (len_nonneg music).
  destruct (mix_buffers voice music pct fi fo) as [e3|mixed] eqn:Hmix.
  { left. eexists. reflexivity. }
  destruct (encode mix_export_opts mixed) as [e4|data] eqn:Henc.
  { right. left. exists e4, mixed. split; [exact Henc | reflexivity]. }
  right. right. exists voice, music, mixed, data.
  repeat split; try assumption; lia.
Qed.

Lemma mix_with_music_value (vp mp op : string) (pct : Z) (fi fo : bool) (w : World) :
  exists b : bool, (mix_with_music vp mp op pct fi fo w).1 = inr b.
Proof.
  destruct (mix_with_music_cases vp mp op pct fi fo w)
    as [[msg E] | [(e & mixed' & _ & E)
                   | (voice & music & mixed & data & _ & _ & _ & _ & _ & _ & E)]];
    rewrite E; eexists; reflexivity.
Qed.

Lemma test_audio_files_value (vp mp : string) (w : World) :
  exists b : bool, (test_audio_files vp mp w).1 = inr b.
Proof.
  unfold test_audio_files, try_except.
  match goal with |- context [match ?m w with _ => _ end] => destruct (m w) as [[e|b] w'] end.
  - exists false. reflexivity.
  - exists b. reflexivity.
Qed.

(** X1: [mix_with_music] never raises: it returns [True] or [False],
    shows at most one message, and shows one only when it returns [False];
    that message is an error. *)
Theorem mix_with_music_returns_bool (vp mp op : string) (pct : Z) (fi fo : bool)
    (w : World) :
  exists b : bool,
    (mix_with_music vp mp op pct fi fo w).1 = inr b /\
    (ui (mix_with_music vp mp op pct fi fo w).2 = ui w \/
     (b = false /\
      exists msg, ui (mix_with_music vp mp op pct fi fo w).2 = (ui w ++ [UiError msg])%list)).
Proof.
  destruct (mix_with_music_cases vp mp op pct fi fo w)
    as [[msg E] | [(e & mixed' & _ & E)
                   | (voice & music & mixed & data & _ & _ & _ & _ & _ & _ & E)]];
    rewrite E; simpl.
  - exists false. split; [reflexivity|]. right. split; [reflexivity|]. now exists msg.
  - exists false. split; [reflexivity|]. right. split; [reflexivity|]. eexists. reflexivity.
  - eexists. split; [reflexivity|]. now left.
Qed.



(** X3: when [mix_with_music] returns [True], both inputs decoded to
    non-empty buffers, the output file holds the non-empty encoding of their
    mix, and no message was shown. *)
Theorem mix_with_music_true_means_output (vp mp op : string) (pct : Z) (fi fo : bool)
    (w : World) :
  (mix_with_music vp mp op pct fi fo w).1 = inr true ->
  exists voice music mixed data,
    (from_file vp (Some "mp3") w).1 = inr voice /\
    (load_music mp w).1 = inr music /\
    0 < len voice /\ 0 < len music /\
    mix_buffers voice music pct fi fo = inr mixed /\
    encode mix_export_opts mixed = inr data /\
    data <> [] /\
    files (mix_with_music vp mp op pct fi fo w).2 !! op = Some data /\
    ui (mix_with_music vp mp op pct fi fo w).2 = ui w.
Proof.
  destruct (mix_with_music_cases vp mp op pct fi fo w)
    as [[msg E] | [(e & mixed' & _ & E)
                   | (voice & music & mixed & data & Hv & Hm & Hlv & Hlm & Hx & Hd & E)]];
    rewrite E; simpl; intros Ht; try discriminate.
  exists voice, music, mixed, data. repeat split; try assumption.
  - intros ->. simpl in Ht. discriminate.
  - apply lookup_insert_eq.
Qed.

(** X4: when the encoder produces an empty file, [mix_with_music] returns
    [False] without showing any message, and leaves the output file empty. *)
Theorem mix_with_music_silent_false (vp mp op : string) (pct : Z) (fi fo : bool)
    (w : World) (voice music mixed : AudioSegment) :
  (from_file vp (Some "mp3") w).1 = inr voice ->
  (load_music mp w).1 = inr music ->
  0 < len voice -> 0 < len music ->
  mix_buffers voice music pct fi fo = inr mixed ->
  encode mix_export_opts mixed = inr [] ->
  mix_with_music vp mp op pct fi fo w = (inr false, stored w op []).
Proof.
  intros Hv Hm Hlv Hlm Hx Hd.
  rewrite (mix_with_music_run vp mp op pct fi fo w voice music Hv Hm).
  destruct (len voice =? 0)%Z eqn:E1; [lia|].
  destruct (len music =? 0)%Z eqn:E2; [lia|]. simpl.
  rewrite Hx, Hd. reflexivity.
Qed.

(** ** The button handlers *)

Lemma try_except_unit (m : M unit) (h : exn -> M unit) (w : World) :
  (forall e w', (h e w').1 = inr tt) -> (try_except m h w).1 = inr tt.
Proof.
  intros Hh. unfold try_except. destruct (m w) as [[e|[]] w']; simpl; auto.
Qed.

Lemma music_to_mix_none (i : Inputs) :
  use_music i = false \/ uploaded_music i = None \/ music_volume_pct i <= 0 ->
  music_to_mix i = None.
Proof.
  unfold music_to_mix. intros [H | [H | H]].
  - now rewrite H.
  - rewrite H. now destruct (_ && _)%bool.
  - assert (E : (0 <? music_volume_pct i)%Z = false) by lia.
    rewrite E, andb_false_r. reflexivity.
Qed.

(** X5: the Preview handler, the Download handler and [test_audio_files]
    never raise: whatever the collaborators do, the handlers return and
    [test_audio_files] returns [True] or [False]. *)
Theorem handlers_never_raise (i : Inputs) (vp mp : string) (w : World) :
  (preview_clicked i w).1 = inr tt /\
  (download_clicked i w).1 = inr tt /\
  exists b : bool, (test_audio_files vp mp w).1 = inr b.
Proof.
  split; [|split].
  - unfold preview_clicked. destruct (is_empty (strip (text i))); [reflexivity|].
    apply try_except_unit. reflexivity.
  - unfold download_clicked. destruct (is_empty (strip (text i))); [reflexivity|].
    apply try_except_unit. reflexivity.
  - apply test_audio_files_value.
Qed.

(** X6: when the text is empty or white space only, so that [text.strip()]
    is empty, Preview and Download show the warning and do nothing else: no
    temporary file, no synthesis, no file touched. *)
Theorem blank_text_only_warns (i : Inputs) (w : World) :
  strip (text i) = EmptyString ->
  preview_clicked i w = (inr tt, shown w [UiWarning "Please enter some text!"]) /\
  download_clicked i w = (inr tt, shown w [UiWarning "Please enter some text!"]).
Proof.
  intros Hs. unfold preview_clicked, download_clicked.
  rewrite Hs. split; reflexivity.
Qed.

(** X7: without music to mix (music disabled, no upload, or a volume of
    zero) and with a successful synthesis, a click never stages or decodes
    anything: Preview plays the temporary voice file and Download offers
    exactly the synthesised bytes under [download_name]; one temporary file
    is created. *)
Theorem voice_only_click (i : Inputs) (w : World) (data : bytes) :
  is_empty (strip (text i)) = false ->
  use_music i = false \/ uploaded_music i = None \/ music_volume_pct i <= 0 ->
  synthesize (text i) (voice_id i) = inr data ->
  let name := tempname (length (temps w)) ".mp3" in
  preview_clicked i w
    = (inr tt, mkWorld (<[name := data]> (files w)) (ui w ++ [UiAudio name])%list
                       (temps w ++ [name])%list) /\
  download_clicked i w
    = (inr tt, mkWorld (<[name := data]> (files w))
                       (ui w ++ [UiDownloadButton data (download_name i)])%list
                       (temps w ++ [name])%list).
Proof.
  intros Htext Hnone Hsyn name. apply music_to_mix_none in Hnone. split.
  - unfold preview_clicked. rewrite Htext, Hnone.
    unfold try_except, mbind, named_temporary_file, generate_tts, mbind, write_file, lift.
    cbn [fst snd files ui temps]. rewrite Hsyn. fold name.
    unfold mret, st_audio, mbind, read_file, emit. cbn [fst snd files ui temps].
    rewrite !insert_insert_eq, lookup_insert_eq. reflexivity.
  - unfold download_clicked. rewrite Htext, Hnone.
    unfold try_except, mbind, named_temporary_file, generate_tts, mbind, write_file, lift.
    cbn [fst snd files ui temps]. rewrite Hsyn. fold name.
    unfold mret, mbind, read_file, emit. cbn [fst snd files ui temps].
    rewrite !insert_insert_eq, lookup_insert_eq. reflexivity.
Qed.

(** X8: when the synthesiser raises, a click shows the error with the
    exception's text and stops: the music is not staged, nothing is played
    or offered, and the temporary voice file is left on disk with whatever
    the synthesiser had written to it. *)
Theorem synthesis_failure_click (i : Inputs) (w : World) (e : exn) :
  is_empty (strip (text i)) = false ->
  synthesize (text i) (voice_id i) = inl e ->
  let name := tempname (length (temps w)) ".mp3" in
  let left := partial_audio (text i) (voice_id i) in
  preview_clicked i w
    = (inr tt, mkWorld (<[name := left]> (files w))
                       (ui w ++ [UiError ("Error generating preview: " ++ e)])%list
                       (temps w ++ [name])%list) /\
  download_clicked i w
    = (inr tt, mkWorld (<[name := left]> (files w))
                       (ui w ++ [UiError ("Error generating audio: " ++ e)])%list
                       (temps w ++ [name])%list).
Proof.
  intros Htext Hsyn name left. split.
  - unfold preview_clicked. rewrite Htext.
    unfold try_except, mbind, named_temporary_file, generate_tts, mbind, write_file, lift.
    cbn [fst snd files ui temps]. rewrite Hsyn. fold name left.
    unfold st_error, emit. cbn [fst snd files ui temps].
    rewrite !insert_insert_eq. reflexivity.
  - unfold download_clicked. rewrite Htext.
    unfold try_except, mbind, named_temporary_file, generate_tts, mbind, write_file, lift.
    cbn [fst snd files ui temps]. rewrite Hsyn. fold name left.
    unfold st_error, emit. cbn [fst snd files ui temps].
    rewrite !insert_insert_eq. reflexivity.
Qed.

(** X10: the Speed and Pitch settings have no effect on what Preview and
    Download do: [generate_tts] receives them and passes neither on. *)
Theorem rate_and_pitch_are_ignored (i : Inputs) (r p : Z) (w : World) :
  preview_clicked (with_rate_pitch i r p) w = preview_clicked i w /\
  download_clicked (with_rate_pitch i r p) w = download_clicked i w.
Proof. split; reflexivity. Qed.

(** X9: a Preview click with music to mix and a successful synthesis
    creates three temporary files (voice, staged upload, mix output), runs
    [mix_with_music] on them, and always plays something: the mix, after a
    success message, when [mix_with_music] returned [True], and the plain
    voice otherwise. *)
Theorem preview_with_music (i : Inputs) (w : World) (data : bytes) (up : Upload) :
  is_empty (strip (text i)) = false ->
  music_to_mix i = Some up ->
  synthesize (text i) (voice_id i) = inr data ->
  let n0 := tempname (length (temps w)) ".mp3" in
  let n1 := tempname (S (length (temps w))) ("." ++ split_dot_last (upload_name up)) in
  let n2 := tempname (S (S (length (temps w)))) ".mp3" in
  let w1 := mkWorld (<[n2 := []]> (<[n1 := upload_value up]> (<[n0 := data]> (files w))))
                    (ui w) (temps w ++ [n0; n1; n2])%list in
  let r := mix_with_music n0 n1 n2 (music_volume_pct i) (fade_in_enabled i)
             (fade_out_enabled i) w1 in
  preview_clicked i w
    = (inr tt,
       match r.1 with
       | inr true => shown r.2 [UiSuccess "✅ Preview with music ready"; UiAudio n2]
       | _ => shown r.2 [UiAudio n0]
       end).
Proof.
  intros Htext Hmix Hsyn n0 n1 n2 w1 r.
  unfold preview_clicked. rewrite Htext, Hmix.
  unfold try_except, mbind, named_temporary_file, generate_tts, stage_music, mbind,
    write_file, lift, mret.
  cbn [fst snd files ui temps]. rewrite Hsyn.
  unfold named_temporary_file. cbn [fst snd files ui temps].
  rewrite !length_app. cbn [length]. rewrite !Nat.add_1_r.
  rewrite !insert_insert_eq. rewrite <- !app_assoc. cbn [app].
  fold n0 n1 n2. fold w1. fold r.
  destruct (mix_with_music_value n0 n1 n2 (music_volume_pct i) (fade_in_enabled i)
              (fade_out_enabled i) w1) as (b & Hb).
  fold r in Hb.
  destruct (nd_mix_with_music n0 n1 n2 (music_volume_pct i) (fade_in_enabled i)
              (fade_out_enabled i) w1) as (Hdom & _).
  fold r in Hdom.
  assert (H0 : is_Some (files r.2 !! n0)).
  { apply elem_of_dom, Hdom, elem_of_dom. unfold w1. cbn [files].
    destruct (decide (n2 = n0)) as [->|]; [rewrite lookup_insert_eq; eauto|].
    rewrite lookup_insert_ne by assumption.
    destruct (decide (n1 = n0)) as [->|]; [rewrite lookup_insert_eq; eauto|].
    rewrite lookup_insert_ne by assumption. rewrite lookup_insert_eq. eauto. }
  assert (H2 : is_Some (files r.2 !! n2)).
  { apply elem_of_dom, Hdom, elem_of_dom. unfold w1. cbn [files].
    rewrite lookup_insert_eq. eauto. }
  clearbody r. destruct r as [[e|b'] w2]; cbn [fst snd] in *; [discriminate|].
  destruct H0 as [d0 H0]. destruct H2 as [d2 H2].
  destruct b'; unfold st_success, st_audio, emit, mbind, read_file, shown;
    cbn [fst snd files ui temps].
  - rewrite H2. cbn [files ui temps]. rewrite <- app_assoc. reflexivity.
  - rewrite H0. reflexivity.
Qed.

(** ** File names and formats *)

Lemma append_cons (c : ascii) (a b : string) : String c a ++ b = String c (a ++ b).
Proof. reflexivity. Qed.

Lemma append_empty_r (a : string) : a ++ EmptyString = a.
Proof.
  induction a as [|c a IH]; [reflexivity|]. rewrite append_cons. now f_equal.
Qed.

Lemma append_snoc (a : string) (c : ascii) (e : string) :
  (a ++ String c EmptyString) ++ e = a ++ String c e.
Proof.
  induction a as [|x a IH]; [reflexivity|]. rewrite !append_cons. now f_equal.
Qed.

Lemma has_dot_app (a b : string) : has_dot (a ++ b) = (has_dot a || has_dot b)%bool.
Proof.
  induction a as [|c a IH]; [reflexivity|].
  rewrite append_cons. cbn [has_dot]. rewrite IH. now rewrite orb_assoc.
Qed.

Lemma last_dot_component_plain (e acc : string) :
  has_dot e = false -> last_dot_component e acc = acc ++ e.
Proof.
  revert acc. induction e as [|c e IH]; cbn [last_dot_component has_dot]; intros acc He.
  - symmetry. apply append_empty_r.
  - apply orb_false_iff in He as [Hc He]. rewrite Hc, IH by assumption.
    apply append_snoc.
Qed.

Lemma last_dot_component_app (stem e acc : string) :
  has_dot e = false -> last_dot_component (stem ++ String "."%char e) acc = e.
Proof.
  intros He. revert acc. induction stem as [|c stem IH]; intros acc.
  - change (EmptyString ++ String "."%char e) with (String "."%char e).
    cbn [last_dot_component]. rewrite Ascii.eqb_refl.
    now rewrite last_dot_component_plain.
  - rewrite append_cons. cbn [last_dot_component].
    destruct (Ascii.eqb c "."%char); apply IH.
Qed.

Lemma last_dot_component_has_no_dot (s acc : string) :
  has_dot acc = false -> has_dot (last_dot_component s acc) = false.
Proof.
  revert acc. induction s as [|c s IH]; cbn [last_dot_component]; intros acc Hacc;
    [assumption|].
  destruct (Ascii.eqb c "."%char) eqn:Hc; apply IH; [reflexivity|].
  rewrite has_dot_app, Hacc. cbn [has_dot orb]. now rewrite Hc.
Qed.

Lemma split_dot_last_has_no_dot (s : string) : has_dot (split_dot_last s) = false.
Proof. now apply last_dot_component_has_no_dot. Qed.

Lemma load_music_dispatch (path : string) :
  load_music path = from_file path (format_of_extension (split_dot_last path)).
Proof.
  unfold load_music, format_of_extension.
  destruct (String.eqb (lower (split_dot_last path)) "mp3"); [reflexivity|].
  destruct (String.eqb (lower (split_dot_last path)) "wav"
            || String.eqb (lower (split_dot_last path)) "wave")%bool; reflexivity.
Qed.

Lemma load_music_suffix (stem ext : string) :
  has_dot ext = false ->
  load_music (stem ++ String "."%char ext)
    = from_file (stem ++ String "."%char ext) (format_of_extension ext).
Proof.
  intros He. rewrite load_music_dispatch. unfold split_dot_last.
  now rewrite last_dot_component_app.
Qed.

Lemma load_music_bare (ext : string) :
  has_dot ext = false -> load_music ext = from_file ext (format_of_extension ext).
Proof.
  intros He. rewrite load_music_dispatch. unfold split_dot_last.
  now rewrite last_dot_component_plain.
Qed.

(** X11: the format under which [mix_with_music] decodes the music depends
    only on the text after the last dot of the path, compared without regard
    to case ([mp3]; [wav] and [wave]; anything else is probed); a path with
    no dot at all is taken whole as its own extension. *)
Theorem load_music_by_extension (stem ext : string) :
  has_dot ext = false ->
  load_music (stem ++ String "."%char ext)
    = from_file (stem ++ String "."%char ext) (format_of_extension ext) /\
  load_music ext = from_file ext (format_of_extension ext).
Proof.
  intros He. split; [now apply load_music_suffix | now apply load_music_bare].
Qed.

(** X12: an upload staged by a button handler is decoded under the format of
    the upload's own extension: the temporary file gets the suffix
    [.<extension>], and when the system's temporary name ends in the suffix
    it was asked for, [load_music] on the staged file picks the format of the
    uploaded name. *)
Theorem staged_upload_keeps_format (up : Upload) (w : World) (stem : string) :
  let ext := split_dot_last (upload_name up) in
  tempname (length (temps w)) (String "."%char ext) = stem ++ String "."%char ext ->
  exists name,
    (stage_music up w).1 = inr name /\
    files (stage_music up w).2 !! name = Some (upload_value up) /\
    load_music name = from_file name (format_of_extension ext).
Proof.
  intros ext Hname. exists (tempname (length (temps w)) (String "."%char ext)).
  split; [reflexivity|]. split.
  { unfold stage_music, mbind, named_temporary_file, write_file, mret.
    cbn [fst snd files]. fold ext. apply lookup_insert_eq. }
  rewrite Hname. apply load_music_suffix. apply split_dot_last_has_no_dot.
Qed.

(** X13: the name under which the download is offered always ends in
    [.mp3] after a non-empty stem: the stem is [output] when the file name
    the user typed is empty or white space only, so that
    [user_filename.strip()] is empty, and it is [user_filename.strip()]
    otherwise. *)
Theorem download_name_shape (i : Inputs) :
  (exists stem, download_name i = stem ++ ".mp3" /\ stem <> EmptyString) /\
  (strip (user_filename i) = EmptyString -> download_name i = "output.mp3") /\
  (strip (user_filename i) <> EmptyString ->
   download_name i = strip (user_filename i) ++ ".mp3").
Proof.
  unfold download_name. split; [|split].
  - destruct (is_empty (strip (user_filename i))) eqn:E.
    + exists "output". split; [reflexivity | discriminate].
    + exists (strip (user_filename i)). split; [reflexivity|].
      intros Hs. rewrite Hs in E. discriminate.
  - intros Hs. rewrite Hs. reflexivity.
  - intros Hs. destruct (strip (user_filename i)); [contradiction | reflexivity].
Qed.

(** ** Presets *)

Lemma load_presets_missing (w : World) :
  files w !! PRESET_FILE = None -> load_presets w = (inr default_preset, w).
Proof.
  intros Hf. unfold load_presets, try_except, mbind, path_exists.
  cbn [fst snd]. rewrite Hf. reflexivity.
Qed.

Lemma load_presets_unreadable (w : World) (data : bytes) (e : exn) :
  files w !! PRESET_FILE = Some data -> json_loads data = inl e ->
  load_presets w
    = (inr default_preset, shown w [UiWarning ("Could not load presets: " ++ e)]).
Proof.
  intros Hf Hj. unfold load_presets, try_except, mbind, path_exists, read_file, lift.
  cbn [fst snd]. rewrite Hf. cbn. rewrite Hf, Hj. reflexivity.
Qed.

Lemma load_presets_parsed (w : World) (data : bytes) (j : Json) :
  files w !! PRESET_FILE = Some data -> json_loads data = inr j ->
  load_presets w = (inr j, w).
Proof.
  intros Hf Hj. unfold load_presets, try_except, mbind, path_exists, read_file, lift.
  cbn [fst snd]. rewrite Hf. cbn. rewrite Hf, Hj. reflexivity.
Qed.

(** X14: [load_presets] never raises and never changes a file.  Without a
    preset file it returns the default preset (the first voice, rate 100,
    pitch 0) silently; with a file that does not parse it returns the default
    and shows one warning with the parser's message; with a file that parses
    it returns the parsed value as it is, unchecked. *)
Theorem load_presets_is_safe (w : World) :
  (exists j, (load_presets w).1 = inr j) /\
  files (load_presets w).2 = files w /\
  temps (load_presets w).2 = temps w /\
  (files w !! PRESET_FILE = None -> load_presets w = (inr default_preset, w)) /\
  (forall data e, files w !! PRESET_FILE = Some data -> json_loads data = inl e ->
     load_presets w
       = (inr default_preset, shown w [UiWarning ("Could not load presets: " ++ e)])) /\
  (forall data j, files w !! PRESET_FILE = Some data -> json_loads data = inr j ->
     load_presets w = (inr j, w)).
Proof.
  assert (H : (exists j, (load_presets w).1 = inr j) /\
              files (load_presets w).2 = files w /\ temps (load_presets w).2 = temps w).
  { destruct (files w !! PRESET_FILE) as [data|] eqn:Hf.
    - destruct (json_loads data) as [e|j] eqn:Hj.
      + rewrite (load_presets_unreadable w data e Hf Hj). simpl. eauto.
      + rewrite (load_presets_parsed w data j Hf Hj). simpl. eauto.
    - rewrite (load_presets_missing w Hf). simpl. eauto. }
  destruct H as (H1 & H2 & H3).
  split; [exact H1|]. split; [exact H2|]. split; [exact H3|].
  split; [apply load_presets_missing|].
  split; [apply load_presets_unreadable | apply load_presets_parsed].
Qed.

Lemma save_clicked_run (voice_label : string) (r p : Z) (w : World) :
  save_clicked voice_label r p w
    = (inr tt, mkWorld (<[PRESET_FILE := json_dumps (preset_json voice_label r p)]> (files w))
                       (ui w ++ [UiSuccess "Preset saved!"])%list (temps w)).
Proof.
  unfold save_clicked, save_presets, try_except, mbind, write_file, st_success, emit.
  cbn [fst snd files ui temps]. rewrite insert_insert_eq. reflexivity.
Qed.

(** X15: a preset saved with Save Preset is the preset [load_presets]
    returns afterwards, whatever the preset file held before, provided the
    JSON codec reads back what it wrote for that preset; saving touches no
    other file and reloading shows no warning. *)
Theorem saved_preset_loads_back (voice_label : string) (r p : Z) (w : World) :
  json_loads (json_dumps (preset_json voice_label r p)) = inr (preset_json voice_label r p) ->
  let w' := (save_clicked voice_label r p w).2 in
  load_presets w' = (inr (preset_json voice_label r p), w') /\
  (forall path, path <> PRESET_FILE -> files w' !! path = files w !! path).
Proof.
  intros Hrt w'. unfold w'. rewrite save_clicked_run. cbn [snd]. split.
  - apply load_presets_parsed with (data := json_dumps (preset_json voice_label r p));
      [apply lookup_insert_eq | exact Hrt].
  - intros path Hp. cbn [files]. now rewrite lookup_insert_ne by congruence.
Qed.

Lemma getitem_voice (voice : string) (r p : Z) :
  getitem (preset_json voice r p) "voice" = inr (JStr voice).
Proof. unfold getitem, preset_json. now rewrite lookup_insert_eq. Qed.

Lemma list_index_from_found (label : string) (keys : list string) (k : nat) :
  label ∈ keys ->
  exists i, list_index_from (JStr label) keys k = inr (k + i)%nat /\ keys !! i = Some label.
Proof.
  revert k. induction keys as [|x keys IH]; intros k Hin; [inversion Hin|].
  cbn [list_index_from]. destruct (String.eqb x label) eqn:E.
  - apply String.eqb_eq in E as ->. exists 0%nat. split; [now rewrite Nat.add_0_r | reflexivity].
  - apply elem_of_cons in Hin as [->|Hin]; [rewrite String.eqb_refl in E; discriminate|].
    destruct (IH (S k) Hin) as (i & Hi & Hk). exists (S i). split; [|exact Hk].
    rewrite Hi. f_equal. lia.
Qed.

Lemma list_index_from_missing (label : string) (keys : list string) (k : nat) :
  label ∉ keys ->
  list_index_from (JStr label) keys k = inl "ValueError: value is not in list".
Proof.
  revert k. induction keys as [|x keys IH]; intros k Hin; [reflexivity|].
  cbn [list_index_from]. apply not_elem_of_cons in Hin as [Hne Hin].
  destruct (String.eqb x label) eqn:E; [apply String.eqb_eq in E; congruence|].
  now apply IH.
Qed.

Lemma dict_get_found (d : list (string * string)) (label : string) :
  label ∈ map fst d -> exists v, dict_get d label = inr v /\ (label, v) ∈ d.
Proof.
  induction d as [|[k v] d IH]; intros Hin; [inversion Hin|].
  cbn [dict_get]. destruct (String.eqb k label) eqn:E.
  - apply String.eqb_eq in E as ->. exists v. split; [reflexivity | left].
  - cbn [map fst] in Hin. apply elem_of_cons in Hin as [->|Hin];
      [rewrite String.eqb_refl in E; discriminate|].
    destruct (IH Hin) as (v' & Hv & Hd). exists v'. split; [exact Hv | now right].
Qed.

(** X16: for every label of [VOICES], the preset saved under that label
    selects the same label again on line 150, and [VOICES[label]] yields its
    voice identifier: neither lookup can raise. *)
Theorem known_voice_is_selected (label : string) (r p : Z) :
  label ∈ voices_keys ->
  exists i vid,
    preset_voice_index (preset_json label r p) = inr i /\
    voices_keys !! i = Some label /\
    dict_get VOICES label = inr vid /\
    (label, vid) ∈ VOICES.
Proof.
  intros Hin.
  destruct (list_index_from_found label voices_keys 0 Hin) as (i & Hi & Hk).
  destruct (dict_get_found VOICES label Hin) as (vid & Hv & Hd).
  exists i, vid. split; [|auto].
  unfold preset_voice_index. rewrite getitem_voice. exact Hi.
Qed.

(** X17: [load_presets] does not validate what it read: a preset file that
    parses to a preset naming a voice outside [VOICES] is returned as it is,
    and line 150 then raises [ValueError]. *)
Theorem unknown_voice_breaks_selection (w : World) (data : bytes) (label : string)
    (r p : Z) :
  files w !! PRESET_FILE = Some data ->
  json_loads data = inr (preset_json label r p) ->
  label ∉ voices_keys ->
  load_presets w = (inr (preset_json label r p), w) /\
  exists e, preset_voice_index (preset_json label r p) = inl e.
Proof.
  intros Hf Hj Hnot. split; [now apply load_presets_parsed with (data := data)|].
  eexists. unfold preset_voice_index. rewrite getitem_voice.
  now apply list_index_from_missing.
Qed.

(** ** More on the pipeline *)

(** X20: a higher volume percentage always gives a strictly higher gain,
    and over the slider's range 0..100 the gain stays between -30 dB and
    +5 dB. *)
Theorem volume_db_is_monotone (pct1 pct2 : Z) :
  pct1 < pct2 ->
  (volume_db pct1 < volume_db pct2)%Q /\
  (0 <= pct1 <= 100 -> (-30 <= volume_db pct1)%Q /\ (volume_db pct1 <= 5)%Q).
Proof.
  intros Hlt. unfold volume_db, Qlt, Qle. simpl. split; [lia|]. intros Hr. split; lia.
Qed.

(** X21: [test_audio_files] stops at the first file that does not decode:
    it returns [False], shows the test-failed error with the exception's
    text, and has created no temporary file. *)
Theorem audio_test_decode_failure (vp mp : string) (w : World) :
  (forall e, (from_file vp None w).1 = inl e ->
     test_audio_files vp mp w = (inr false, shown w [UiError ("❌ Audio test failed: " ++ e)])) /\
  (forall voice e, (from_file vp None w).1 = inr voice -> (from_file mp None w).1 = inl e ->
     test_audio_files vp mp w = (inr false, shown w [UiError ("❌ Audio test failed: " ++ e)])).
Proof.
  split.
  - intros e Hv. unfold test_audio_files, try_except, mbind.
    rewrite (from_file_run vp), Hv. reflexivity.
  - intros voice e Hv Hm. unfold test_audio_files, try_except, mbind.
    rewrite (from_file_run vp), Hv, (from_file_run mp), Hm. reflexivity.
Qed.

(** X22: unlike [mix_with_music], [test_audio_files] does not check for
    empty audio: with an empty decoded voice the test mix is empty too, and
    when it encodes the test returns [True] and plays the encoded file. *)
Theorem audio_test_accepts_empty_voice (vp mp : string) (w : World)
    (voice music : AudioSegment) (data : bytes) :
  (from_file vp None w).1 = inr voice ->
  (from_file mp None w).1 = inr music ->
  len voice = 0 ->
  encode (mkOpts "mp3" None []) (test_mix voice music) = inr data ->
  len (test_mix voice music) = 0 /\
  (test_audio_files vp mp w).1 = inr true /\
  ui (test_audio_files vp mp w).2
    = (ui w ++ [UiAudio (tempname (length (temps w)) ".mp3")])%list.
Proof.
  intros Hv Hm Hz Hd. split.
  - unfold test_mix. rewrite overlay_len, slice_to_len; rewrite Hz; reflexivity.
  - rewrite (test_audio_files_run vp mp w voice music data Hv Hm Hd). split; reflexivity.
Qed.

(** X23: a Download click with music to mix and a successful synthesis
    always ends by offering a file under [download_name]: the content of the
    mix output when [mix_with_music] returned [True] (after a success
    message), the content of the temporary voice file otherwise.  The audio
    test, when ticked, runs first and its outcome never stops the mix or the
    download. *)
Theorem download_with_music (i : Inputs) (w : World) (data : bytes) (up : Upload) :
  is_empty (strip (text i)) = false ->
  music_to_mix i = Some up ->
  synthesize (text i) (voice_id i) = inr data ->
  let n0 := tempname (length (temps w)) ".mp3" in
  let n1 := tempname (S (length (temps w))) ("." ++ split_dot_last (upload_name up)) in
  let n2 := tempname (S (S (length (temps w)))) ".mp3" in
  let w1 := mkWorld (<[n2 := []]> (<[n1 := upload_value up]> (<[n0 := data]> (files w))))
                    (ui w ++ [UiInfo "🎵 Mixing with background music..."])%list
                    (temps w ++ [n0; n1; n2])%list in
  let w2 := if test_first i then (test_audio_files n0 n1 w1).2 else w1 in
  let r := mix_with_music n0 n1 n2 (music_volume_pct i) (fade_in_enabled i)
             (fade_out_enabled i) w2 in
  exists offered,
    download_clicked i w
      = (inr tt,
         match r.1 with
         | inr true =>
             shown r.2 [UiSuccess "✅ Audio mixed and ready";
                        UiDownloadButton offered (download_name i)]
         | _ => shown r.2 [UiDownloadButton offered (download_name i)]
         end) /\
    files r.2 !! (match r.1 with inr true => n2 | _ => n0 end) = Some offered.
Proof.
  intros Htext Hmix Hsyn n0 n1 n2 w1 w2 r.
  assert (Hdom1 : dom (files w1) ⊆ dom (files w2)).
  { unfold w2. destruct (test_first i); [|reflexivity].
    apply (nd_test_audio_files n0 n1 w1). }
  destruct (mix_with_music_value n0 n1 n2 (music_volume_pct i) (fade_in_enabled i)
              (fade_out_enabled i) w2) as (b & Hb).
  fold r in Hb.
  destruct (nd_mix_with_music n0 n1 n2 (music_volume_pct i) (fade_in_enabled i)
              (fade_out_enabled i) w2) as (Hdom2 & _).
  fold r in Hdom2.
  assert (H0 : is_Some (files r.2 !! n0)).
  { apply elem_of_dom, Hdom2, Hdom1, elem_of_dom. unfold w1. cbn [files].
    destruct (decide (n2 = n0)) as [->|]; [rewrite lookup_insert_eq; eauto|].
    rewrite lookup_insert_ne by assumption.
    destruct (decide (n1 = n0)) as [->|]; [rewrite lookup_insert_eq; eauto|].
    rewrite lookup_insert_ne by assumption. rewrite lookup_insert_eq. eauto. }
  assert (H2 : is_Some (files r.2 !! n2)).
  { apply elem_of_dom, Hdom2, Hdom1, elem_of_dom. unfold w1. cbn [files].
    rewrite lookup_insert_eq. eauto. }
  assert (Htest :
    (if test_first i
     then let! _ := test_audio_files n0 n1 in mret tt
     else mret tt) w1 = (inr tt, w2)).
  { unfold w2. destruct (test_first i); [|reflexivity].
    destruct (test_audio_files_value n0 n1 w1) as (bt & Hbt).
    unfold mbind. destruct (test_audio_files n0 n1 w1) as [[e|b'] wt];
      cbn [fst snd] in *; [discriminate | reflexivity]. }
  assert (Hr : mix_with_music n0 n1 n2 (music_volume_pct i) (fade_in_enabled i)
                 (fade_out_enabled i) w2 = r) by reflexivity.
  clearbody r. destruct r as [[e|b'] w3]; cbn [fst snd] in *; [discriminate|].
  destruct H0 as [d0 H0]. destruct H2 as [d2 H2].
  exists (if b' then d2 else d0). split; [|destruct b'; assumption].
  unfold download_clicked. rewrite Htext, Hmix.
  unfold try_except. unfold mbind at 1 2 3 4 5 6 7.
  unfold named_temporary_file at 1. cbn [fst snd files ui temps].
  unfold generate_tts, mbind at 1 2, write_file, lift. cbn [fst snd files ui temps].
  rewrite Hsyn. unfold st_info, emit, stage_music, named_temporary_file, mbind at 1 2 3 4,
    write_file, mret at 1.
  cbn [fst snd files ui temps].
  rewrite !length_app. cbn [length]. rewrite !Nat.add_1_r.
  rewrite !insert_insert_eq. rewrite <- !app_assoc. cbn [app].
  fold n0 n1 n2. fold w1.
  unfold mbind in Htest. rewrite Htest. rewrite Hr.
  destruct b'; unfold st_success, emit, mbind, mret, read_file, shown;
    cbn [fst snd files ui temps].
  - rewrite H2. cbn [files ui temps]. rewrite <- app_assoc. reflexivity.
  - rewrite H0. reflexivity.
Qed.

End Engine.

(** * Runs on the concrete environment *)

Lemma valid_mono (xs : list Z) : valid (mono xs).
Proof.
  unfold valid, mono. simpl.
  split; [reflexivity|]. split; [now left|]. split; [reflexivity|].
  induction xs as [|x xs IH]; simpl; constructor; [|exact IH].
  constructor; [reflexivity | constructor].
Defined.

(** C1 at work: two milliseconds of music under five of voice, both fades on. *)
Lemma mix_keeps_voice_frame_count_witness :
  exists mixed,
    mix_buffers demo_db_to_float demo_ratecv
      (mono [100; 200; 300; 400; 500]) (mono [1000; -1000]) 30 true true = inr mixed /\
    frame_count mixed = frame_count (mono [100; 200; 300; 400; 500]) /\
    len mixed = len (mono [100; 200; 300; 400; 500]) /\
    frame_rate mixed = frame_rate (mono [100; 200; 300; 400; 500]) /\
    channels mixed = channels (mono [100; 200; 300; 400; 500]).
Proof.
  apply mix_keeps_voice_frame_count;
    [apply valid_mono | apply valid_mono | reflexivity | reflexivity | reflexivity].
Defined.

Example mix_example :
  mix_buffers demo_db_to_float demo_ratecv
    (mono [100; 200; 300; 400; 500]) (mono [1000; -1000]) 30 true true
  = inr (mono [100; 140; 380; 340; 500]).
Proof. vm_compute. reflexivity. Qed.

(** C2 as stated fails: four milliseconds of voice over two of music are
    covered by [ceil(4 / 2) = 2] copies, and the code makes three. *)
Lemma loop_count_is_not_ceil :
  len (mono [5; 6]) < len (mono [1; 2; 3; 4]) /\
  loop_count (mono [1; 2; 3; 4]) (mono [5; 6]) = inr 3 /\
  spec_repetitions (len (mono [1; 2; 3; 4])) (len (mono [5; 6])) = 2 /\
  blocks (seg_repeat (mono [5; 6]) 3) = blocks (mono [5; 6; 5; 6; 5; 6]).
Proof. repeat split. Qed.

Lemma loop_repeats_floor_plus_one_witness :
  loop_count (mono [1; 2; 3; 4; 5]) (mono [7; 8]) = inr 3 /\
  3 = spec_repetitions 5 2 + 0 /\
  match_duration (mono [1; 2; 3; 4; 5]) (mono [7; 8]) = inr (mono [7; 8; 7; 8; 7]) /\
  len (mono [7; 8; 7; 8; 7]) = len (mono [1; 2; 3; 4; 5]).
Proof.
  destruct (loop_repeats_floor_plus_one (mono [1; 2; 3; 4; 5]) (mono [7; 8]))
    as (H1 & H2 & _ & H4 & _ & H6); [reflexivity | reflexivity |].
  split; [exact H1|]. split; [exact H2|]. split; [exact H4 | exact H6].
Defined.

(** C3 at work: a three-millisecond voice, any music, volume zero. *)
Lemma zero_volume_returns_voice_witness :
  let w := demo_disk [Byte.x01; Byte.x02; Byte.x03] [Byte.x10; Byte.x20] in
  mix_buffers demo_db_to_float demo_ratecv (mono [1; 2; 3]) (mono [16; 32]) 0 true true
    = inr (mono [1; 2; 3]) /\
  forall data, demo_encode mix_export_opts (mono [1; 2; 3]) = inr data ->
    mix_with_music demo_db_to_float demo_ratecv demo_decode demo_encode demo_leftovers
      "voice.mp3" "music.wav" "out.mp3" 0 true true w
    = (inr (0 <? Z.of_nat (length data))%Z, stored w "out.mp3" data).
Proof.
  apply zero_volume_returns_voice;
    [vm_compute; reflexivity | vm_compute; reflexivity | reflexivity | reflexivity].
Defined.

(** C4 at work: volume 30 on a stereo track aligned to a mono voice. *)
Lemma gain_is_linear_in_volume_witness :
  (volume_db 30 == - (39 # 2))%Q /\
  (volume_db 100 == 5)%Q /\ (volume_db 50 == - (25 # 2))%Q /\
  samples (apply_gain demo_db_to_float (volume_db 30) (mono [1000; -1000]))
    = map (mul_sample 2 (demo_db_to_float (volume_db 30))) [1000; -1000].
Proof.
  destruct (gain_is_linear_in_volume demo_db_to_float demo_ratecv
              (mono [1; 2; 3]) (mkSeg 1000 2 2 [[[1000; 1000]]; [[-1000; -1000]]])
              (mono [1000; -1000]) 30 true true)
    as (_ & H2 & H3 & H4 & H5 & _); [lia | vm_compute; reflexivity |].
  split; [rewrite H2; reflexivity|].
  split; [exact H3|]. split; [exact H4 | exact H5].
Defined.

(** C5 at work: both fades over a five-millisecond voice. *)
Lemma fades_follow_duration_matching_witness :
  exists aligned matched,
    align demo_ratecv (mono [100; 200; 300; 400; 500]) (mono [1000; -1000]) = inr aligned /\
    match_duration (mono [100; 200; 300; 400; 500])
      (apply_gain demo_db_to_float (volume_db 30) aligned) = inr matched /\
    mix_buffers demo_db_to_float demo_ratecv
      (mono [100; 200; 300; 400; 500]) (mono [1000; -1000]) 30 true true
    = inr (overlay (mono [100; 200; 300; 400; 500]) (apply_fades true true matched)) /\
    len matched = 5.
Proof.
  destruct (fades_follow_duration_matching demo_db_to_float demo_ratecv
              (mono [100; 200; 300; 400; 500]) (mono [1000; -1000]) 30 true true)
    as (aligned & matched & H1 & H2 & H3 & H4 & _);
    [apply valid_mono | apply valid_mono | reflexivity | discriminate |].
  exists aligned, matched.
  split; [exact H1|]. split; [exact H2|]. split; [exact H3 | exact H4].
Defined.

Example fade_in_example :
  fade_in 3000 (mono [500; -500; 500; -500; 500]) = mono [0; -100; 200; -300; 400].
Proof. vm_compute. reflexivity. Qed.

Example fade_out_example :
  fade_out 3000 (mono [500; 500; 500; 500; 500]) = mono [400; 300; 200; 100; 0].
Proof. vm_compute. reflexivity. Qed.

(** C6 at work: an empty music file next to a good voice. *)
Lemma empty_input_fails_up_front_witness :
  let w := demo_disk [Byte.x01; Byte.x02; Byte.x03] [] in
  mix_with_music demo_db_to_float demo_ratecv demo_decode demo_encode demo_leftovers
    "voice.mp3" "music.wav" "out.mp3" 30 true true w
  = (inr false, shown w [empty_audio_error]) /\
  files (mix_with_music demo_db_to_float demo_ratecv demo_decode demo_encode demo_leftovers
           "voice.mp3" "music.wav" "out.mp3" 30 true true w).2 = files w.
Proof.
  apply (empty_input_fails_up_front demo_db_to_float demo_ratecv demo_decode demo_encode
           demo_leftovers "voice.mp3" "music.wav" "out.mp3" 30 true true
           (demo_disk [Byte.x01; Byte.x02; Byte.x03] []) (mono [1; 2; 3]) (mono []));
    [vm_compute; reflexivity | vm_compute; reflexivity | right; reflexivity].
Defined.

(** C7 at work: the fade-in raises on a good voice and a good music file. *)
Lemma mix_failure_reported_witness :
  let w := demo_disk [Byte.x01; Byte.x02; Byte.x03] [Byte.x10; Byte.x20] in
  let run := mix_with_music_under demo_db_to_float demo_ratecv demo_decode demo_encode
               demo_leftovers (raises_at CallFadeIn audioop_size_error)
               "voice.mp3" "music.wav" "out.mp3" 30 true true w in
  mix_failure demo_db_to_float demo_ratecv demo_decode demo_encode
    (raises_at CallFadeIn audioop_size_error) "voice.mp3" "music.wav" 30 true true w
    = Some (Fade, audioop_size_error) /\
  run = (inr false, shown w [mixing_error audioop_size_error]) /\
  observation run = (inr false, [mixing_error audioop_size_error]).
Proof.
  cbv zeta. split; [vm_compute; reflexivity|].
  destruct (mix_failure_reported demo_db_to_float demo_ratecv demo_decode demo_encode
              demo_leftovers (raises_at CallFadeIn audioop_size_error)
              "voice.mp3" "music.wav" "out.mp3" 30 true true
              (demo_disk [Byte.x01; Byte.x02; Byte.x03] [Byte.x10; Byte.x20])
              Fade audioop_size_error)
    as (H1 & _ & H3 & _); [vm_compute; reflexivity|].
  split; [apply H1; discriminate | exact H3].
Defined.

(** Every stage can be the one that fails. *)
Example every_stage_can_fail :
  let w := demo_disk [Byte.x01; Byte.x02; Byte.x03] [Byte.x10; Byte.x20] in
  let long := demo_disk [Byte.x01; Byte.x02; Byte.x03; Byte.x04; Byte.x05;
                         Byte.x06; Byte.x07; Byte.x08; Byte.x09] [Byte.x10; Byte.x20] in
  let failure decode raised w :=
    mix_failure demo_db_to_float demo_ratecv decode demo_encode raised
      "voice.mp3" "music.wav" 30 true true w in
  failure demo_decode no_raise (demo_disk [Byte.x00] [Byte.x10])
    = Some (Decode, "Decoding failed. ffmpeg returned error code: 1") /\
  failure demo_decode_wide (raises_at CallSetFrameRate audioop_size_error) w
    = Some (Resample, audioop_size_error) /\
  failure demo_decode_wide (raises_at CallSetChannels audioop_size_error) w
    = Some (Remap, audioop_size_error) /\
  failure demo_decode (raises_at CallGain audioop_size_error) w
    = Some (Gain, audioop_size_error) /\
  failure demo_decode (raises_at CallRepeat "MemoryError") w = Some (Loop, "MemoryError") /\
  failure demo_decode (raises_at CallFadeOut audioop_size_error) w
    = Some (Fade, audioop_size_error) /\
  failure demo_decode (raises_at CallOverlay audioop_size_error) w
    = Some (Overlay, audioop_size_error) /\
  failure demo_decode no_raise long
    = Some (Export, "Encoding failed. ffmpeg/avlib returned error code: 1").
Proof. cbv zeta. repeat split; vm_compute; reflexivity. Qed.

(** C7 as stated fails.  A gain that raises and an overlay that raises the
    same library error end the run in the same way: the same value, the same
    message, the same files, so nothing that surfaces tells the stage.  And
    when the decoder raises in one run and the encoder in another, each with
    a text of its own, the caller still receives the same bare [False] in
    both, and the failed export has created the output file, empty. *)
Lemma mix_error_names_no_stage :
  let w := demo_disk [Byte.x01; Byte.x02; Byte.x03] [Byte.x10; Byte.x20] in
  let bad := demo_disk [Byte.x00; Byte.x02] [Byte.x10; Byte.x20] in
  let long := demo_disk [Byte.x01; Byte.x02; Byte.x03; Byte.x04; Byte.x05;
                         Byte.x06; Byte.x07; Byte.x08; Byte.x09] [Byte.x10; Byte.x20] in
  let failure raised w :=
    mix_failure demo_db_to_float demo_ratecv demo_decode demo_encode raised
      "voice.mp3" "music.wav" 30 true true w in
  let run raised w :=
    mix_with_music_under demo_db_to_float demo_ratecv demo_decode demo_encode
      demo_leftovers raised "voice.mp3" "music.wav" "out.mp3" 30 true true w in
  (failure (raises_at CallGain audioop_size_error) w = Some (Gain, audioop_size_error) /\
   failure (raises_at CallOverlay audioop_size_error) w = Some (Overlay, audioop_size_error) /\
   Gain <> Overlay /\
   run (raises_at CallGain audioop_size_error) w
     = run (raises_at CallOverlay audioop_size_error) w /\
   run (raises_at CallGain audioop_size_error) w
     = (inr false, shown w [UiError "❌ Error mixing audio: not a whole number of frames"])) /\
  (failure no_raise bad
     = Some (Decode, "Decoding failed. ffmpeg returned error code: 1") /\
   failure no_raise long
     = Some (Export, "Encoding failed. ffmpeg/avlib returned error code: 1") /\
   (run no_raise bad).1 = inr false /\
   (run no_raise long).1 = inr false /\
   files long !! "out.mp3" = None /\
   files (run no_raise long).2 !! "out.mp3" = Some [] /\
   ui (run no_raise bad).2
     = [UiError "❌ Error mixing audio: Decoding failed. ffmpeg returned error code: 1"] /\
   ui (run no_raise long).2
     = [UiError "❌ Error mixing audio: Encoding failed. ffmpeg/avlib returned error code: 1"]).
Proof.
  cbv zeta. split.
  - split; [vm_compute; reflexivity|]. split; [vm_compute; reflexivity|].
    split; [discriminate|]. split; vm_compute; reflexivity.
  - repeat split; vm_compute; reflexivity.
Qed.

(** C8 as stated fails: after a Preview click the temporary voice file is
    still on disk, when the click succeeded and when the synthesiser
    raised. *)
Lemma preview_leaves_temp_file :
  let run voice :=
    (preview_clicked demo_db_to_float demo_ratecv demo_decode demo_encode
       demo_synthesize demo_tempname demo_strip demo_partial_audio demo_leftovers
       (demo_inputs voice) empty_world).2 in
  (temps (run "en-US-JennyNeural") = ["/tmp/tmp0.mp3"] /\
   files (run "en-US-JennyNeural") !! "/tmp/tmp0.mp3" = Some (list_byte_of_string "hi") /\
   ui (run "en-US-JennyNeural") = [UiAudio "/tmp/tmp0.mp3"] /\
   ~ temps_released empty_world (run "en-US-JennyNeural")) /\
  (temps (run "") = ["/tmp/tmp0.mp3"] /\
   files (run "") !! "/tmp/tmp0.mp3" = Some (list_byte_of_string "h") /\
   ui (run "") = [UiError "Error generating preview: No audio was received"] /\
   ~ temps_released empty_world (run "")).
Proof.
  cbv zeta. split.
  - split; [vm_compute; reflexivity|]. split; [vm_compute; reflexivity|].
    split; [vm_compute; reflexivity|].
    intros H. specialize (H "/tmp/tmp0.mp3").
    assert (Hx : files (preview_clicked demo_db_to_float demo_ratecv demo_decode
                          demo_encode demo_synthesize demo_tempname demo_strip
                          demo_partial_audio demo_leftovers
                          (demo_inputs "en-US-JennyNeural") empty_world).2
                   !! "/tmp/tmp0.mp3" = None).
    { apply H; [vm_compute; constructor | simpl; intros Hin; inversion Hin]. }
    vm_compute in Hx. discriminate.
  - split; [vm_compute; reflexivity|]. split; [vm_compute; reflexivity|].
    split; [vm_compute; reflexivity|].
    intros H. specialize (H "/tmp/tmp0.mp3").
    assert (Hx : files (preview_clicked demo_db_to_float demo_ratecv demo_decode
                          demo_encode demo_synthesize demo_tempname demo_strip
                          demo_partial_audio demo_leftovers
                          (demo_inputs "") empty_world).2
                   !! "/tmp/tmp0.mp3" = None).
    { apply H; [vm_compute; constructor | simpl; intros Hin; inversion Hin]. }
    vm_compute in Hx. discriminate.
Qed.

(** C9 at work: the preview of a three-millisecond voice. *)
Lemma preview_is_short_overlay_witness :
  let w := demo_disk [Byte.x01; Byte.x02; Byte.x03] [Byte.x10; Byte.x20] in
  test_mix demo_db_to_float (mono [1; 2; 3]) (mono [16; 32])
    = overlay (slice_to (mono [1; 2; 3]) 3)
        (slice_to (apply_gain demo_db_to_float (-20) (mono [16; 32])) 3) /\
  len (test_mix demo_db_to_float (mono [1; 2; 3]) (mono [16; 32])) = 3 /\
  test_audio_files demo_db_to_float demo_decode demo_encode demo_tempname demo_leftovers
    "voice.mp3" "music.wav" w
  = (inr true,
     mkWorld (<["/tmp/tmp0.mp3" := [Byte.x02; Byte.x05; Byte.x03]]> (files w))
             [UiAudio "/tmp/tmp0.mp3"] ["/tmp/tmp0.mp3"]).
Proof.
  destruct (preview_is_short_overlay demo_db_to_float demo_ratecv demo_decode demo_encode
              demo_tempname demo_leftovers "voice.mp3" "music.wav"
              (demo_disk [Byte.x01; Byte.x02; Byte.x03] [Byte.x10; Byte.x20])
              (mono [1; 2; 3]) (mono [16; 32]))
    as (H1 & _ & H3 & H4 & _); [vm_compute; reflexivity | vm_compute; reflexivity |].
  cbv zeta. split; [exact H1|]. split; [exact H3|].
  apply (H4 [Byte.x02; Byte.x05; Byte.x03]). vm_compute. reflexivity.
Defined.

(** C10 at work: volume zero, a good voice and a music file that does not
    decode, or one that is empty. *)
Lemma zero_volume_still_checks_music_witness :
  (let w := demo_disk [Byte.x01; Byte.x02; Byte.x03] [Byte.x00] in
   mix_with_music demo_db_to_float demo_ratecv demo_decode demo_encode demo_leftovers
     "voice.mp3" "music.wav" "out.mp3" 0 false false w
   = (inr false, shown w [mixing_error "Decoding failed. ffmpeg returned error code: 1"])) /\
  (let w := demo_disk [Byte.x01; Byte.x02; Byte.x03] [] in
   mix_with_music demo_db_to_float demo_ratecv demo_decode demo_encode demo_leftovers
     "voice.mp3" "music.wav" "out.mp3" 0 false false w
   = (inr false, shown w [empty_audio_error])).
Proof.
  cbv zeta. split.
  - destruct (zero_volume_still_checks_music demo_db_to_float demo_ratecv demo_decode
                demo_encode demo_leftovers "voice.mp3" "music.wav" "out.mp3" false false
                (demo_disk [Byte.x01; Byte.x02; Byte.x03] [Byte.x00]) (mono [1; 2; 3]))
      as [H1 _]; [vm_compute; reflexivity | reflexivity |].
    apply H1. vm_compute. reflexivity.
  - destruct (zero_volume_still_checks_music demo_db_to_float demo_ratecv demo_decode
                demo_encode demo_leftovers "voice.mp3" "music.wav" "out.mp3" false false
                (demo_disk [Byte.x01; Byte.x02; Byte.x03] []) (mono [1; 2; 3]))
      as [_ H2]; [vm_compute; reflexivity | reflexivity |].
    apply (H2 (mono [])); [vm_compute; reflexivity | reflexivity].
Defined.

(** ** The gain in binary64

    The rational [volume_db] idealises the doubles Python computes with. At
    100 and at 50 per cent the double result is exactly 5 and -12.5, and over
    the whole slider range it is within [2 ^ -47] of the double nearest to the
    rational value. *)

Example volume_db_binary64_100 : volume_db_binary64 100 = float_of_Z 5.
Proof. vm_compute. reflexivity. Qed.

Example volume_db_binary64_50 :
  volume_db_binary64 50 = PrimFloat.div (float_of_Z (-25)) (float_of_Z 2).
Proof. vm_compute. reflexivity. Qed.

Example volume_db_binary64_close :
  forallb
    (fun k : nat =>
       PrimFloat.leb
         (PrimFloat.abs
            (PrimFloat.sub (volume_db_binary64 (Z.of_nat k)) (volume_db_nearest (Z.of_nat k))))
         (PrimFloat.div (float_of_Z 1) (float_of_Z (2 ^ 47))))
    (seq 0 101) = true.
Proof. vm_compute. reflexivity. Qed.

(** ** Clipping *)

Lemma clip_in_range (w x : Z) :
  0 < w -> min_sample w <= clip w x <= max_sample w.
Proof.
  intros Hw. unfold clip, min_sample, max_sample.
  assert (0 < 2 ^ (8 * w - 1)) by (apply Z.pow_pos_nonneg; lia). lia.
Qed.

Lemma add_sample_in_range (w x y : Z) :
  0 < w -> min_sample w <= add_sample w x y <= max_sample w.
Proof. intros Hw. apply clip_in_range. exact Hw. Qed.

Lemma mul_sample_in_range (w : Z) (k : Q) (x : Z) :
  0 < w -> min_sample w <= mul_sample w k x <= max_sample w.
Proof. intros Hw. apply clip_in_range. exact Hw. Qed.

Example add_sample_clips : add_sample 2 30000 30000 = 32767 /\ add_sample 2 (-30000) (-30000) = -32768.
Proof. split; reflexivity. Qed.

Example split_dot_last_mp3 : lower (split_dot_last "My.Song.MP3") = "mp3".
Proof. reflexivity. Qed.

Example split_dot_last_nodot : split_dot_last "song" = "song".
Proof. reflexivity. Qed.

Example demo_strip_spaces : demo_strip "  a b  " = "a b".
Proof. reflexivity. Qed.

(** * Further runs on the concrete environment *)

Lemma mix_with_music_true_means_output_witness :
  let w := demo_disk [Byte.x01; Byte.x02; Byte.x03] [Byte.x10; Byte.x20] in
  let run := mix_with_music demo_db_to_float demo_ratecv demo_decode demo_encode demo_leftovers
               "voice.mp3" "music.wav" "out.mp3" 30 false false w in
  run.1 = inr true /\
  exists voice music mixed data,
    (from_file demo_decode "voice.mp3" (Some "mp3") w).1 = inr voice /\
    (load_music demo_decode "music.wav" w).1 = inr music /\
    0 < len voice /\ 0 < len music /\
    mix_buffers demo_db_to_float demo_ratecv voice music 30 false false = inr mixed /\
    demo_encode mix_export_opts mixed = inr data /\
    data <> [] /\
    files run.2 !! "out.mp3" = Some data /\
    ui run.2 = ui w.
Proof.
  cbv zeta. split; [vm_compute; reflexivity|].
  apply mix_with_music_true_means_output. vm_compute. reflexivity.
Defined.

Lemma mix_with_music_silent_false_witness :
  let w := demo_disk [Byte.x01] [Byte.x01] in
  mix_with_music demo_db_to_float demo_ratecv demo_decode_hollow demo_encode demo_leftovers
    "voice.mp3" "music.wav" "out.mp3" 0 false false w
  = (inr false, stored w "out.mp3" []).
Proof.
  cbv zeta.
  apply (mix_with_music_silent_false demo_db_to_float demo_ratecv demo_decode_hollow
           demo_encode demo_leftovers "voice.mp3" "music.wav" "out.mp3" 0 false false
           (demo_disk [Byte.x01] [Byte.x01])
           (mkSeg 1000 1 2 [[]; []]) (mkSeg 1000 1 2 [[]; []]) (mkSeg 1000 1 2 [[]; []]));
    vm_compute; reflexivity.
Defined.

Lemma blank_text_only_warns_witness :
  let i := mkInputs "  " "en-US-JennyNeural" 100 0 false None 30 false false "out" false in
  preview_clicked demo_db_to_float demo_ratecv demo_decode demo_encode demo_synthesize
    demo_tempname demo_strip demo_partial_audio demo_leftovers i empty_world
  = (inr tt, shown empty_world [UiWarning "Please enter some text!"]) /\
  download_clicked demo_db_to_float demo_ratecv demo_decode demo_encode demo_synthesize
    demo_tempname demo_strip demo_partial_audio demo_leftovers i empty_world
  = (inr tt, shown empty_world [UiWarning "Please enter some text!"]).
Proof. cbv zeta. apply blank_text_only_warns. reflexivity. Defined.

Lemma voice_only_click_witness :
  let i := demo_inputs "en-US-JennyNeural" in
  let data := list_byte_of_string "hi" in
  preview_clicked demo_db_to_float demo_ratecv demo_decode demo_encode demo_synthesize
    demo_tempname demo_strip demo_partial_audio demo_leftovers i empty_world
  = (inr tt, mkWorld (<["/tmp/tmp0.mp3" := data]> ∅) [UiAudio "/tmp/tmp0.mp3"]
                     ["/tmp/tmp0.mp3"]) /\
  download_clicked demo_db_to_float demo_ratecv demo_decode demo_encode demo_synthesize
    demo_tempname demo_strip demo_partial_audio demo_leftovers i empty_world
  = (inr tt, mkWorld (<["/tmp/tmp0.mp3" := data]> ∅) [UiDownloadButton data "out.mp3"]
                     ["/tmp/tmp0.mp3"]).
Proof.
  cbv zeta.
  apply (voice_only_click demo_db_to_float demo_ratecv demo_decode demo_encode
           demo_synthesize demo_tempname demo_strip demo_partial_audio demo_leftovers
           (demo_inputs "en-US-JennyNeural") empty_world
           (list_byte_of_string "hi"));
    [reflexivity | left; reflexivity | reflexivity].
Defined.

Lemma synthesis_failure_click_witness :
  let i := demo_inputs "" in
  preview_clicked demo_db_to_float demo_ratecv demo_decode demo_encode demo_synthesize
    demo_tempname demo_strip demo_partial_audio demo_leftovers i empty_world
  = (inr tt, mkWorld (<["/tmp/tmp0.mp3" := list_byte_of_string "h"]> ∅)
                     [UiError "Error generating preview: No audio was received"]
                     ["/tmp/tmp0.mp3"]) /\
  download_clicked demo_db_to_float demo_ratecv demo_decode demo_encode demo_synthesize
    demo_tempname demo_strip demo_partial_audio demo_leftovers i empty_world
  = (inr tt, mkWorld (<["/tmp/tmp0.mp3" := list_byte_of_string "h"]> ∅)
                     [UiError "Error generating audio: No audio was received"]
                     ["/tmp/tmp0.mp3"]).
Proof.
  cbv zeta.
  apply (synthesis_failure_click demo_db_to_float demo_ratecv demo_decode demo_encode
           demo_synthesize demo_tempname demo_strip demo_partial_audio demo_leftovers
           (demo_inputs "") empty_world
           "No audio was received"); reflexivity.
Defined.

Lemma preview_with_music_witness :
  ui (preview_clicked demo_db_to_float demo_ratecv demo_decode demo_encode demo_synthesize
        demo_tempname demo_strip demo_partial_audio demo_leftovers
        (demo_music_inputs false) empty_world).2
  = [UiSuccess "✅ Preview with music ready"; UiAudio "/tmp/tmp2.mp3"] /\
  temps (preview_clicked demo_db_to_float demo_ratecv demo_decode demo_encode
           demo_synthesize demo_tempname demo_strip demo_partial_audio demo_leftovers
           (demo_music_inputs false) empty_world).2
  = ["/tmp/tmp0.mp3"; "/tmp/tmp1.wav"; "/tmp/tmp2.mp3"].
Proof.
  rewrite (preview_with_music demo_db_to_float demo_ratecv demo_decode demo_encode
             demo_synthesize demo_tempname demo_strip demo_partial_audio demo_leftovers
             (demo_music_inputs false) empty_world
             (list_byte_of_string "hi") (mkUpload "song.wav" [Byte.x10; Byte.x20]));
    [| reflexivity | reflexivity | reflexivity].
  split; vm_compute; reflexivity.
Defined.

Lemma download_with_music_witness :
  exists offered,
    ui (download_clicked demo_db_to_float demo_ratecv demo_decode demo_encode
          demo_synthesize demo_tempname demo_strip demo_partial_audio demo_leftovers
          (demo_music_inputs false) empty_world).2
    = [UiInfo "🎵 Mixing with background music...";
       UiSuccess "✅ Audio mixed and ready"; UiDownloadButton offered "out.mp3"] /\
    offered <> [].
Proof.
  destruct (download_with_music demo_db_to_float demo_ratecv demo_decode demo_encode
              demo_synthesize demo_tempname demo_strip demo_partial_audio demo_leftovers
              (demo_music_inputs false) empty_world
              (list_byte_of_string "hi") (mkUpload "song.wav" [Byte.x10; Byte.x20]))
    as (offered & Hrun & Hfile); [reflexivity | reflexivity | reflexivity |].
  exists offered. rewrite Hrun. vm_compute in Hfile. inversion Hfile; subst offered.
  split; [vm_compute; reflexivity | discriminate].
Defined.

Lemma load_music_by_extension_witness :
  load_music demo_decode "song.WAV" = from_file demo_decode "song.WAV" (Some "wav") /\
  load_music demo_decode "WAV" = from_file demo_decode "WAV" (Some "wav").
Proof. apply (load_music_by_extension demo_decode "song" "WAV"). reflexivity. Defined.

Lemma staged_upload_keeps_format_witness :
  exists name,
    (stage_music demo_tempname (mkUpload "My.Song.MP3" [Byte.x10]) empty_world).1 = inr name /\
    files (stage_music demo_tempname (mkUpload "My.Song.MP3" [Byte.x10]) empty_world).2 !! name
      = Some [Byte.x10] /\
    load_music demo_decode name = from_file demo_decode name (Some "mp3").
Proof.
  apply (staged_upload_keeps_format demo_decode demo_tempname
           (mkUpload "My.Song.MP3" [Byte.x10]) empty_world "/tmp/tmp0").
  reflexivity.
Defined.

Lemma saved_preset_loads_back_witness :
  let w' := (save_clicked demo_json_dumps "Aria (US, Female)" 120 5 empty_world).2 in
  load_presets demo_json_loads w' = (inr (preset_json "Aria (US, Female)" 120 5), w') /\
  (forall path, path <> PRESET_FILE -> files w' !! path = files empty_world !! path).
Proof.
  apply (saved_preset_loads_back demo_json_dumps demo_json_loads
           "Aria (US, Female)" 120 5 empty_world).
  vm_compute. reflexivity.
Defined.

Lemma known_voice_is_selected_witness :
  exists i vid,
    preset_voice_index (preset_json "Guy (US, Male)" 100 0) = inr i /\
    voices_keys !! i = Some "Guy (US, Male)" /\
    dict_get VOICES "Guy (US, Male)" = inr vid /\
    ("Guy (US, Male)", vid) ∈ VOICES.
Proof.
  apply known_voice_is_selected. unfold voices_keys. cbn [map fst VOICES].
  right. right. left.
Defined.

Lemma unknown_voice_breaks_selection_witness :
  let w := demo_preset_disk (demo_json_dumps (preset_json "Robot" 100 0)) in
  load_presets demo_json_loads w = (inr (preset_json "Robot" 100 0), w) /\
  exists e, preset_voice_index (preset_json "Robot" 100 0) = inl e.
Proof.
  cbv zeta.
  apply (unknown_voice_breaks_selection demo_json_loads
           (demo_preset_disk (demo_json_dumps (preset_json "Robot" 100 0)))
           (demo_json_dumps (preset_json "Robot" 100 0)) "Robot" 100 0);
    [vm_compute; reflexivity | vm_compute; reflexivity |].
  unfold voices_keys. cbn [map fst VOICES]. intros Hin.
  repeat (apply elem_of_cons in Hin as [Hin|Hin]; [discriminate|]).
  inversion Hin.
Defined.

Lemma volume_db_is_monotone_witness :
  (volume_db 30 < volume_db 35)%Q /\
  (0 <= 30 <= 100 -> (-30 <= volume_db 30)%Q /\ (volume_db 30 <= 5)%Q).
Proof. apply volume_db_is_monotone. reflexivity. Defined.

Lemma audio_test_accepts_empty_voice_witness :
  let w := demo_disk [] [Byte.x10] in
  len (test_mix demo_db_to_float (mono []) (mono [16])) = 0 /\
  (test_audio_files demo_db_to_float demo_decode demo_encode demo_tempname demo_leftovers
     "voice.mp3" "music.wav" w).1 = inr true /\
  ui (test_audio_files demo_db_to_float demo_decode demo_encode demo_tempname demo_leftovers
        "voice.mp3" "music.wav" w).2 = (ui w ++ [UiAudio "/tmp/tmp0.mp3"])%list.
Proof.
  cbv zeta.
  apply (audio_test_accepts_empty_voice demo_db_to_float demo_decode demo_encode
           demo_tempname demo_leftovers "voice.mp3" "music.wav" (demo_disk [] [Byte.x10])
           (mono []) (mono [16]) []); vm_compute; reflexivity.
Defined.
